(** * Ordinal-MCP oracle bus: a shallow embedding of [server.py]

    The bus is a directory tree ([requests/], [responses/], [history/])
    shared by an issuer ([oracle_call]) and a responder
    ([respond_to_oracle_call]).  The development models

    - the Python values that are stored (JSON objects with text and integer
      fields) and the exceptions the code can raise on them;
    - the three directories as finite maps keyed by request id: the file
      [requests/<id>.json] is the binding of [id] in [requests], the file
      [history/<stamp>/request_<id>.json] the binding of [id] in the
      [request_files] of the directory [stamp] (ids are file-name components:
      they hold no path separator);
    - for [respond_to_oracle_call], whose id is a text of the caller, also
      the file tree with paths as the file system resolves them ([Fs]);
    - the calls to the file system one at a time ([syscall]), for the runs
      in which the operations overlap;
    - wall-clock time as an integer count of milliseconds since the epoch;
      only [asyncio.sleep] lets time pass;
    - the other processes as a time-stamped script of responder calls.

    A record written with [json.dump] is read back by [json.load] as the
    dictionary that was written; a character of a text is one [ascii];
    what the code logs is left out. *)

From Stdlib Require Import Ascii.
From stdpp Require Import gmap strings list fin_maps pretty sorting.

Open Scope Z_scope.

(** ** Python values, dictionaries and exceptions *)

Module Py.

Inductive exn : Type :=
| JSONDecodeError
| AttributeError
| TypeError
| FileNotFoundError
| IsADirectoryError
| NotADirectoryError
| ValueError.

Inductive result (A : Type) : Type :=
| Ok (a : A)
| Raise (e : exn).
Arguments Ok {A} a.
Arguments Raise {A} e.

Definition bind {A B} (r : result A) (k : A -> result B) : result B :=
  match r with
  | Ok a => k a
  | Raise e => Raise e
  end.

(** The values found in the records of the bus: text and integers
    (the persisted format has no other field type). *)
Inductive value : Type :=
| VStr (s : string)
| VInt (n : Z).

(** A Python [dict] with text keys, in insertion order. *)
Definition dict : Type := list (string * value).

(** [d.get(key, default)] *)
Fixpoint get (d : dict) (key : string) (default : value) : value :=
  match d with
  | [] => default
  | (k, v) :: d' => if String.eqb k key then v else get d' key default
  end.

(** [d[key] = v]: an existing key keeps its position. *)
Fixpoint set (d : dict) (key : string) (v : value) : dict :=
  match d with
  | [] => [(key, v)]
  | (k, w) :: d' => if String.eqb k key then (k, v) :: d' else (k, w) :: set d' key v
  end.

(** What an f-string prints for a value. *)
Definition str (v : value) : string :=
  match v with
  | VStr s => s
  | VInt n => pretty n
  end.

(** [v[:n]]: integers are not subscriptable. *)
Definition slice_to (n : nat) (v : value) : result value :=
  match v with
  | VStr s => Ok (VStr (String.substring 0 n s))
  | VInt _ => Raise TypeError
  end.

Definition upper_ascii (c : ascii) : ascii :=
  let n := N_of_ascii c in
  if ((97 <=? n) && (n <=? 122))%N then ascii_of_N (n - 32) else c.

Fixpoint upper_string (s : string) : string :=
  match s with
  | EmptyString => EmptyString
  | String c s' => String (upper_ascii c) (upper_string s')
  end.

(** [v.upper()]: integers have no such method. *)
Definition upper (v : value) : result value :=
  match v with
  | VStr s => Ok (VStr (upper_string s))
  | VInt _ => Raise AttributeError
  end.

Definition newline : string := String (ascii_of_N 10) EmptyString.

(** ["\n".join(lines)] *)
Definition join_lines (lines : list string) : string :=
  String.concat newline lines.

(** [l[:limit]]: a negative limit drops that many elements from the end. *)
Definition take_to {A} (limit : Z) (l : list A) : list A :=
  if 0 <=? limit then take (Z.to_nat limit) l
  else take (length l - Z.to_nat (- limit)) l.

End Py.

Import Py.

Notation "x <- r ;; k" := (Py.bind r (fun x => k))
  (at level 100, r at next level, right associativity).

(** ** Wall-clock time and its two renderings *)

Module Clock.

(** Civil date of a day count since 1970-01-01 (proleptic Gregorian). *)
Definition civil_from_days (days : Z) : Z * Z * Z :=
  let z := days + 719468 in
  let era := z / 146097 in
  let doe := z - era * 146097 in
  let yoe := (doe - doe / 1460 + doe / 36524 - doe / 146096) / 365 in
  let doy := doe - (365 * yoe + yoe / 4 - yoe / 100) in
  let mp := (5 * doy + 2) / 153 in
  let d := doy - (153 * mp + 2) / 5 + 1 in
  let m := if mp <? 10 then mp + 3 else mp - 9 in
  let y := yoe + era * 400 + (if m <=? 2 then 1 else 0) in
  (y, m, d).

(** Decimal rendering padded with zeros on the left to [width] digits. *)
Definition digits (width : nat) (n : Z) : string :=
  let s := pretty n in
  String.concat "" (replicate (width - String.length s) "0") +:+ s.

(** [datetime.now(timezone.utc).strftime("%Y%m%d_%H%M%S")] at [now]
    milliseconds since the epoch. *)
Definition strftime (now : Z) : string :=
  let secs := now / 1000 in
  let '(y, m, d) := civil_from_days (secs / 86400) in
  let sod := secs mod 86400 in
  digits 4 y +:+ digits 2 m +:+ digits 2 d +:+ "_" +:+
  digits 2 (sod / 3600) +:+ digits 2 (sod mod 3600 / 60) +:+ digits 2 (sod mod 60).

(** [datetime.now(timezone.utc).isoformat()]: the fraction is printed
    only when it is not zero. *)
Definition isoformat (now : Z) : string :=
  let secs := now / 1000 in
  let '(y, m, d) := civil_from_days (secs / 86400) in
  let sod := secs mod 86400 in
  let micro := now mod 1000 * 1000 in
  digits 4 y +:+ "-" +:+ digits 2 m +:+ "-" +:+ digits 2 d +:+ "T" +:+
  digits 2 (sod / 3600) +:+ ":" +:+ digits 2 (sod mod 3600 / 60) +:+ ":" +:+
  digits 2 (sod mod 60) +:+
  (if micro =? 0 then "" else "." +:+ digits 6 micro) +:+ "+00:00".

End Clock.

(** ** Request identifiers: [str(uuid.uuid4())[:8]] *)

Module Uuid.

Definition hex_digit (n : N) : ascii :=
  if (n <? 10)%N then ascii_of_N (48 + n) else ascii_of_N (87 + n).

(** The [w] low hexadecimal digits of [n], most significant first
    (['%0wx' % n] when [n < 16 ^ w]). *)
Fixpoint hex_fixed (w : nat) (n : N) : string :=
  match w with
  | O => EmptyString
  | S w' => String (hex_digit ((n / 16 ^ N.of_nat w') mod 16)%N) (hex_fixed w' n)
  end.

(** [uuid.uuid4()] from 128 random bits: the variant and version bits
    are forced, every other bit is random. *)
Definition uuid4 (random : N) : N :=
  let i := N.land random (N.ones 128) in
  let i := N.ldiff i (N.shiftl 49152 48) in
  let i := N.lor i (N.shiftl 32768 48) in
  let i := N.ldiff i (N.shiftl 61440 64) in
  N.lor i (N.shiftl 4 76).

(** [str(u)]: 32 hexadecimal digits grouped 8-4-4-4-12. *)
Definition uuid_str (u : N) : string :=
  let h := hex_fixed 32 u in
  String.substring 0 8 h +:+ "-" +:+ String.substring 8 4 h +:+ "-" +:+
  String.substring 12 4 h +:+ "-" +:+ String.substring 16 4 h +:+ "-" +:+
  String.substring 20 12 h.

(** [request_id = str(uuid.uuid4())[:8]] *)
Definition request_id_of (random : N) : string :=
  String.substring 0 8 (uuid_str (uuid4 random)).

End Uuid.

(** ** The correlation store: the three directories of the bus *)

Module Store.

(** What a [.json] file holds: a document that [json.load] reads back as
    a dictionary, or text that it rejects. *)
Inductive content : Type :=
| Json (d : dict)
| Garbage (raw : string).

(** A directory [history/<stamp>/]: its [request_<id>.json] and
    [response_<id>.json] files, each keyed by [id]. *)
Record archive_dir : Type := {
  request_files : gmap string content;
  response_files : gmap string content
}.

(** The bus directory: [requests/] and [responses/] by id, [history/] by
    directory name (its entries are the directories the archiver makes). *)
Record bus : Type := {
  requests : gmap string content;
  responses : gmap string content;
  history : gmap string archive_dir
}.

Definition empty_dir : archive_dir :=
  {| request_files := ∅; response_files := ∅ |}.

Definition empty_bus : bus :=
  {| requests := ∅; responses := ∅; history := ∅ |}.

(** [json.load] of an open file. *)
Definition json_load (c : content) : result dict :=
  match c with
  | Json d => Ok d
  | Garbage _ => Raise JSONDecodeError
  end.

(** [_write_request]: create or overwrite [requests/<id>.json]. *)
Definition _write_request (request_id : string) (data : dict) (s : bus) : bus :=
  {| requests := <[request_id := Json data]> (requests s);
     responses := responses s;
     history := history s |}.

(** [_read_response]: [None] when [responses/<id>.json] does not exist. *)
Definition _read_response (request_id : string) (s : bus) : result (option dict) :=
  match responses s !! request_id with
  | Some c => d <- json_load c ;; Ok (Some d)
  | None => Ok None
  end.

(** [archive_dir.mkdir(parents=True, exist_ok=True)] *)
Definition mkdir (stamp : string) (s : bus) : bus :=
  match history s !! stamp with
  | Some _ => s
  | None =>
      {| requests := requests s;
         responses := responses s;
         history := <[stamp := empty_dir]> (history s) |}
  end.

(** [req_path.rename(archive_dir / f"request_{request_id}.json")]:
    the source and the target directory must exist; a file already at the
    target is replaced. *)
Definition rename_request (request_id stamp : string) (s : bus) : result bus :=
  match requests s !! request_id, history s !! stamp with
  | Some c, Some dir =>
      Ok {| requests := delete request_id (requests s);
            responses := responses s;
            history :=
              <[stamp := {| request_files := <[request_id := c]> (request_files dir);
                            response_files := response_files dir |}]> (history s) |}
  | _, _ => Raise FileNotFoundError
  end.

(** [resp_path.rename(archive_dir / f"response_{request_id}.json")] *)
Definition rename_response (request_id stamp : string) (s : bus) : result bus :=
  match responses s !! request_id, history s !! stamp with
  | Some c, Some dir =>
      Ok {| requests := requests s;
            responses := delete request_id (responses s);
            history :=
              <[stamp := {| request_files := request_files dir;
                            response_files := <[request_id := c]> (response_files dir) |}]>
                (history s) |}
  | _, _ => Raise FileNotFoundError
  end.

(** The store between the two renames of [_archive_exchange]: the
    directory is made and the request, if there is one, has moved. *)
Definition _archive_exchange_request (now : Z) (request_id : string) (s : bus) : result bus :=
  let timestamp := Clock.strftime now in
  let s := mkdir timestamp s in
  if decide (is_Some (requests s !! request_id))
  then rename_request request_id timestamp s
  else Ok s.

(** [_archive_exchange]: move the request and the response of
    [request_id] into the history directory named after the current
    second. *)
Definition _archive_exchange (now : Z) (request_id : string) (s : bus) : result bus :=
  let timestamp := Clock.strftime now in
  s <- _archive_exchange_request now request_id s ;;
  if decide (is_Some (responses s !! request_id))
  then rename_response request_id timestamp s
  else Ok s.

(** The directory [dir] once the open records of [request_id] in [s]
    have been renamed into it. *)
Definition moved_into (request_id : string) (s : bus) (dir : archive_dir) : archive_dir :=
  {| request_files :=
       match requests s !! request_id with
       | Some c => <[request_id := c]> (request_files dir)
       | None => request_files dir
       end;
     response_files :=
       match responses s !! request_id with
       | Some c => <[request_id := c]> (response_files dir)
       | None => response_files dir
       end |}.

(** The store a completed [_archive_exchange] leaves, in one expression
    (see [_archive_exchange_archived]). *)
Definition archived (stamp request_id : string) (s : bus) : bus :=
  {| requests := delete request_id (requests s);
     responses := delete request_id (responses s);
     history :=
       <[stamp := moved_into request_id s (default empty_dir (history s !! stamp))]>
         (history s) |}.

(** Where an id is to be found. *)
Definition is_open (request_id : string) (s : bus) : Prop :=
  is_Some (requests s !! request_id) \/ is_Some (responses s !! request_id).

Definition in_dir (request_id : string) (dir : archive_dir) : Prop :=
  is_Some (request_files dir !! request_id) \/ is_Some (response_files dir !! request_id).

Definition is_archived (request_id : string) (s : bus) : Prop :=
  exists stamp dir, history s !! stamp = Some dir /\ in_dir request_id dir.


End Store.

Import Store.

(** ** The response recorder *)

(** [respond_to_oracle_call(request_id, answer)] called at time [now]:
    the value returned (or the exception raised) and the store it leaves.
    Here [request_id] is the key of a file, as it is for an id without a
    path separator; what the code does with any text is
    [Fs.respond_to_oracle_call] below. *)
Definition respond_to_oracle_call (now : Z) (request_id answer : string) (s : bus)
  : result string * bus :=
  match requests s !! request_id with
  | None => (Ok ("No pending request found with ID: " +:+ request_id), s)
  | Some c =>
      match json_load c with
      | Raise e => (Raise e, s)
      | Ok request_data =>
          let response_data :=
            [("id", VStr request_id);
             ("type", VStr "oracle_response");
             ("question", get request_data "question" (VStr ""));
             ("answer", VStr answer);
             ("responder", VStr "oracle");
             ("timestamp", VStr (Clock.isoformat now))] in
          (Ok ("Response recorded for request " +:+ request_id +:+
               ". The caller will receive it shortly."),
           {| requests := requests s;
              responses := <[request_id := Json response_data]> (responses s);
              history := history s |})
      end
  end.

(** ** The recorder on the file tree

    [respond_to_oracle_call] is the one operation that builds its paths
    from a text the caller supplies.  On the store above that text is the
    key of a file; here it is what the code makes of it, a relative path
    handed to the file system, so that separators, [..] and a leading
    slash reach files outside the directory.  The tree has no links,
    names are compared character by character, and they are taken to be
    within the length limits of the file system. *)

Module Fs.

(** A resolved absolute path: the names from the root down. *)
Abbreviation path := (list string).

(** The directories and the regular files of a tree. *)
Record tree : Type := {
  dirs : gset path;
  files : gmap path content
}.

(** [s.split("/")] *)
Fixpoint components (s : string) : list string :=
  match s with
  | EmptyString => [EmptyString]
  | String c s' =>
      if Ascii.eqb c "/" then EmptyString :: components s'
      else match components s' with
           | name :: rest => String c name :: rest
           | [] => [String c EmptyString]
           end
  end.

Fixpoint contains (c : ascii) (s : string) : bool :=
  match s with
  | EmptyString => false
  | String c' s' => Ascii.eqb c' c || contains c s'
  end.

(** What [pathlib] keeps of a relative path: its names, without the empty
    ones and the dots. *)
Definition parts (s : string) : list string :=
  filter (fun name => name <> EmptyString /\ name <> ".") (components s).

Definition is_absolute (s : string) : bool :=
  match s with
  | String c _ => Ascii.eqb c "/"
  | EmptyString => false
  end.

(** The file system follows the names one by one from [cur]: each is
    looked up in a directory that must exist, [..] leads to the parent.
    The last name need not exist. *)
Fixpoint walk (t : tree) (cur : path) (names : list string) : result path :=
  match names with
  | [] => Ok cur
  | name :: rest =>
      if decide (cur ∈ dirs t)
      then walk t (if String.eqb name ".." then removelast cur else cur ++ [name]) rest
      else match files t !! cur with
           | Some _ => Raise NotADirectoryError
           | None => Raise FileNotFoundError
           end
  end.

(** Where [base / rel] leads: a path that starts with a slash replaces
    the base. *)
Definition resolve (t : tree) (base : path) (rel : string) : result path :=
  if is_absolute rel then walk t [] (parts rel) else walk t base (parts rel).

(** [(base / rel).exists()]: a path with a null character, and one that
    leads through a missing directory or through a file, are reported as
    not there. *)
Definition exists_ (t : tree) (base : path) (rel : string) : bool :=
  if contains (ascii_of_N 0) rel then false
  else match resolve t base rel with
       | Ok p => bool_decide (p ∈ dirs t \/ is_Some (files t !! p))
       | Raise _ => false
       end.

(** [open(base / rel)] and [json.load] of it are told apart below; this
    is the open and the read. *)
Definition open_read (t : tree) (base : path) (rel : string) : result content :=
  if contains (ascii_of_N 0) rel then Raise ValueError
  else match resolve t base rel with
       | Ok p =>
           match files t !! p with
           | Some c => Ok c
           | None => if decide (p ∈ dirs t) then Raise IsADirectoryError
                     else Raise FileNotFoundError
           end
       | Raise e => Raise e
       end.

(** [open(base / rel, "w")] and the write: the file is made or
    replaced. *)
Definition open_write (t : tree) (base : path) (rel : string) (c : content) : result tree :=
  if contains (ascii_of_N 0) rel then Raise ValueError
  else match resolve t base rel with
       | Ok p =>
           if decide (p ∈ dirs t) then Raise IsADirectoryError
           else Ok {| dirs := dirs t; files := <[p := c]> (files t) |}
       | Raise e => Raise e
       end.

(** [respond_to_oracle_call(request_id, answer)] at time [now] on the
    tree [t]; [BUS_DIR] is the resolved path of the bus directory. *)
Definition respond_to_oracle_call (BUS_DIR : path) (now : Z) (request_id answer : string)
    (t : tree) : result string * tree :=
  let REQUESTS_DIR := BUS_DIR ++ ["requests"] in
  let RESPONSES_DIR := BUS_DIR ++ ["responses"] in
  if negb (exists_ t REQUESTS_DIR (request_id +:+ ".json"))
  then (Ok ("No pending request found with ID: " +:+ request_id), t)
  else
    match c <- open_read t REQUESTS_DIR (request_id +:+ ".json") ;; json_load c with
    | Raise e => (Raise e, t)
    | Ok request_data =>
        let response_data :=
          [("id", VStr request_id);
           ("type", VStr "oracle_response");
           ("question", get request_data "question" (VStr ""));
           ("answer", VStr answer);
           ("responder", VStr "oracle");
           ("timestamp", VStr (Clock.isoformat now))] in
        match open_write t RESPONSES_DIR (request_id +:+ ".json") (Json response_data) with
        | Raise e => (Raise e, t)
        | Ok t' =>
            (Ok ("Response recorded for request " +:+ request_id +:+
                 ". The caller will receive it shortly."), t')
        end
    end.

End Fs.

(** An id that names one file of a directory: it has no separator and no
    null character. *)
Definition plain (request_id : string) : Prop :=
  Fs.contains "/" request_id = false /\ Fs.contains (ascii_of_N 0) request_id = false.

(** The store [s] is what the tree [t] holds under the bus directory for
    the ids that name one file: the two directories of open records are
    there, and for each such id the file of its request and the file of
    its response are the records of the store. *)
Definition represents (BUS_DIR : Fs.path) (t : Fs.tree) (s : bus) : Prop :=
  BUS_DIR ++ ["requests"] ∈ Fs.dirs t
  /\ BUS_DIR ++ ["responses"] ∈ Fs.dirs t
  /\ forall request_id, plain request_id ->
       (BUS_DIR ++ ["requests"; request_id +:+ ".json"] ∉ Fs.dirs t)
       /\ (BUS_DIR ++ ["responses"; request_id +:+ ".json"] ∉ Fs.dirs t)
       /\ Fs.files t !! (BUS_DIR ++ ["requests"; request_id +:+ ".json"])
          = requests s !! request_id
       /\ Fs.files t !! (BUS_DIR ++ ["responses"; request_id +:+ ".json"])
          = responses s !! request_id.

(** ** The other processes *)

(** One call of [respond_to_oracle_call] by a responder, at [at_ms]
    milliseconds since the epoch. *)
Record responder_call : Type := {
  at_ms : Z;
  call_id : string;
  call_answer : string
}.

(** The calls of a script that have happened by [now], and those to come. *)
Definition due (now : Z) (script : list responder_call) : list responder_call :=
  filter (fun c => at_ms c <= now) script.

Definition later (now : Z) (script : list responder_call) : list responder_call :=
  filter (fun c => now < at_ms c) script.

(** The store after the responders made [calls], in that order. *)
Definition responder_runs (calls : list responder_call) (s : bus) : bus :=
  foldl (fun s c => (respond_to_oracle_call (at_ms c) (call_id c) (call_answer c) s).2) s calls.

(** ** The request issuer *)

(** How a call of [oracle_call] ended: what it returned or raised, the
    store and the clock at that moment, the times at which it looked for a
    response, and the responder calls still to come. *)
Record outcome : Type := {
  returned : result string;
  final : bus;
  finished_at : Z;
  polls : list Z;
  pending : list responder_call
}.

(** [poll_interval = 2.0] seconds. *)
Definition poll_interval : Z := 2000.

Section Issuer.

(** [lag k] is how much longer than [poll_interval] the [k]-th
    [asyncio.sleep] lasts. *)
Variable lag : nat -> N.
Variables (request_id : string) (request_data : dict).
Variables (timeout_seconds start_time : Z).

Definition timeout_message : string :=
  "Oracle call timed out after " +:+ pretty timeout_seconds +:+
  "s. The oracle did not respond. Request ID: " +:+ request_id.

Definition response_message (response : dict) : string :=
  let answer := get response "answer" (VStr "(no answer provided)") in
  let responder := get response "responder" (VStr "oracle") in
  "Oracle response (" +:+ str responder +:+ "): " +:+ str answer.

(** The [while] loop of [oracle_call] and what follows it.  [k] counts the
    sleeps so far, [now] is the clock, [seen] the times of the lookups so
    far; every unfolding of the loop costs one unit of [fuel]. *)
Fixpoint wait_loop (fuel k : nat) (now : Z) (script : list responder_call)
    (s : bus) (seen : list Z) : option outcome :=
  match fuel with
  | O => None
  | S fuel' =>
      if now - start_time <? timeout_seconds * 1000 then
        match _read_response request_id s with
        | Raise e => Some (Build_outcome (Raise e) s now (seen ++ [now]) script)
        | Ok (Some response) =>
            match _archive_exchange now request_id s with
            | Raise e => Some (Build_outcome (Raise e) s now (seen ++ [now]) script)
            | Ok s' =>
                Some (Build_outcome (Ok (response_message response)) s' now
                        (seen ++ [now]) script)
            end
        | Ok None =>
            let now' := now + poll_interval + Z.of_N (lag k) in
            wait_loop fuel' (S k) now' (later now' script)
              (responder_runs (due now' script) s) (seen ++ [now])
        end
      else
        let request_data' := set request_data "status" (VStr "timeout") in
        let s := _write_request request_id request_data' s in
        match _archive_exchange now request_id s with
        | Raise e => Some (Build_outcome (Raise e) s now seen script)
        | Ok s' => Some (Build_outcome (Ok timeout_message) s' now seen script)
        end
  end.

End Issuer.

(** [oracle_call(question, context, urgency, timeout_seconds)] started at
    time [now] on the store [s]; [random] is the 128 bits [uuid.uuid4()]
    draws and [script] what the responders do: their calls due by [now]
    have been made when the request is written, the others are made
    while the issuer sleeps. *)
Definition oracle_call (random : N) (lag : nat -> N) (script : list responder_call)
    (fuel : nat) (question context urgency : string) (timeout_seconds : Z)
    (now : Z) (s : bus) : option outcome :=
  let request_id := Uuid.request_id_of random in
  let timestamp := Clock.isoformat now in
  let request_data :=
    [("id", VStr request_id);
     ("type", VStr "oracle_call");
     ("from_level", VInt 2);
     ("to_level", VInt 3);
     ("question", VStr question);
     ("context", VStr context);
     ("urgency", VStr urgency);
     ("timestamp", VStr timestamp);
     ("status", VStr "pending")] in
  let s := responder_runs (due now script) s in
  let s := _write_request request_id request_data s in
  let start_time := now in
  wait_loop lag request_id request_data timeout_seconds start_time
    fuel 0 now (later now script) s [].

(** ** The inspector: status and listings *)

Module Inspector.

(** The body of a [for] loop that appends lines, run over a list; the
    first exception ends the pass. *)
Fixpoint for_each {A} (body : A -> result (list string)) (l : list A)
  : result (list string) :=
  match l with
  | [] => Ok []
  | x :: l' => ys <- body x ;; zs <- for_each body l' ;; Ok (ys ++ zs)
  end.

(** [sorted(...)] of the paths [requests/<id>.json]: by file name. *)
Definition path_le (a b : string * content) : Prop :=
  Is_true (String.leb (a.1 +:+ ".json") (b.1 +:+ ".json")).

Definition name_le {A} (a b : string * A) : Prop :=
  Is_true (String.leb a.1 b.1).

#[local] Instance path_le_dec a b : Decision (path_le a b) := _.
#[local] Instance name_le_dec {A} (a b : string * A) : Decision (name_le a b) := _.

Definition status_line (file : string * content) : result (list string) :=
  req <- json_load file.2 ;;
  urgency <- upper (get req "urgency" (VStr "normal")) ;;
  question <- slice_to 60 (get req "question" (VStr "?")) ;;
  Ok ["  [" +:+ str (get req "id" (VStr "?")) +:+ "] " +:+ str urgency +:+ ": " +:+
      str question].

(** [bus_status()]; [BUS_DIR] is the configured root of the bus. *)
Definition bus_status (BUS_DIR : string) (s : bus) : result string :=
  let pending_requests := map_to_list (requests s) in
  let pending_responses := map_to_list (responses s) in
  let history_entries := map_to_list (history s) in
  let status_lines :=
    ["=== Ordinal Bus Status ===";
     "Bus directory: " +:+ BUS_DIR;
     "Pending requests: " +:+ pretty (length pending_requests);
     "Pending responses: " +:+ pretty (length pending_responses);
     "Historical exchanges: " +:+ pretty (length history_entries);
     ""] in
  more <-
    match pending_requests with
    | [] => Ok []
    | _ =>
        ls <- for_each status_line (merge_sort path_le pending_requests) ;;
        Ok (["--- Pending Requests ---"] ++ ls ++ [""])
    end ;;
  Ok (join_lines (status_lines ++ more)).

(** The count [bus_status] reports as "Historical exchanges". *)
Definition historical_exchanges (s : bus) : nat :=
  length (map_to_list (history s)).

Definition pending_lines (file : string * content) : result (list string) :=
  req <- json_load file.2 ;;
  Ok ["Request ID: " +:+ str (get req "id" (VStr "?"));
      "  Question: " +:+ str (get req "question" (VStr "?"));
      "  Context: " +:+ str (get req "context" (VStr "(none)"));
      "  Urgency: " +:+ str (get req "urgency" (VStr "normal"));
      "  Time: " +:+ str (get req "timestamp" (VStr "?"));
      "  Status: " +:+ str (get req "status" (VStr "pending"));
      ""].

(** [list_pending_calls()] *)
Definition list_pending_calls (s : bus) : result string :=
  let pending := map_to_list (requests s) in
  match pending with
  | [] => Ok "No pending oracle calls on the bus."
  | _ =>
      ls <- for_each pending_lines (merge_sort path_le pending) ;;
      Ok (join_lines (["=== Pending Oracle Calls ==="; ""] ++ ls))
  end.

Definition history_request_lines (file : string * content) : result (list string) :=
  req <- json_load file.2 ;;
  question <- slice_to 80 (get req "question" (VStr "?")) ;;
  Ok ["[" +:+ str (get req "id" (VStr "?")) +:+ "] Q: " +:+ str question;
      "  Urgency: " +:+ str (get req "urgency" (VStr "normal")) +:+ " | Status: " +:+
      str (get req "status" (VStr "?"))].

Definition history_response_lines (file : string * content) : result (list string) :=
  resp <- json_load file.2 ;;
  answer <- slice_to 80 (get resp "answer" (VStr "(no answer)")) ;;
  Ok ["  A: " +:+ str answer;
      "  Responder: " +:+ str (get resp "responder" (VStr "?"))].

(** The body of the loop over the history directories.  [glob] yields
    the files of a directory in the order the file system keeps them;
    here it is the order of the map. *)
Definition history_dir_lines (entry : string * archive_dir) : result (list string) :=
  let req_files := map_to_list (request_files entry.2) in
  let resp_files := map_to_list (response_files entry.2) in
  qs <- for_each history_request_lines req_files ;;
  rs <- for_each history_response_lines resp_files ;;
  Ok (qs ++ rs ++ ["  Archived: " +:+ entry.1; ""]).

(** [bus_history(limit)]: the entries of [history/] are the directories
    the archiver makes, so [is_dir()] holds of each. *)
Definition bus_history (limit : Z) (s : bus) : result string :=
  let history_dirs :=
    take_to limit (reverse (merge_sort name_le (map_to_list (history s)))) in
  match history_dirs with
  | [] => Ok "No history on the bus yet."
  | _ =>
      ls <- for_each history_dir_lines history_dirs ;;
      Ok (join_lines (["=== Ordinal Bus History ==="; ""] ++ ls))
  end.

End Inspector.

(** ** The operations as atomic steps on the store *)

(** The runs in which the operations do not overlap and no id is drawn
    twice: [oracle_call] writes its request under an id new to the store
    and suspends; a responder calls [respond_to_oracle_call], under an id
    that is the key of a file, and no archive falls between its test and
    its write; [oracle_call] wakes, finds a response and archives; or it
    wakes past its deadline, rewrites its request and archives.  The code
    enforces neither condition; what it can do call by call is [syscall]
    below, of which every step here is a run ([step_syscalls]). *)
Inductive step : bus -> bus -> Prop :=
| step_issue request_id data s :
    ~ is_open request_id s -> ~ is_archived request_id s ->
    step s (_write_request request_id data s)
| step_respond now request_id answer s :
    step s (respond_to_oracle_call now request_id answer s).2
| step_answered now request_id response s s' :
    _read_response request_id s = Ok (Some response) ->
    _archive_exchange now request_id s = Ok s' ->
    step s s'
| step_timed_out now request_id data s s' :
    _archive_exchange now request_id (_write_request request_id data s) = Ok s' ->
    step s s'.

Definition reachable (s : bus) : Prop := rtc step empty_bus s.

(** No id is at once in an open directory and in the history. *)
Definition exclusive (s : bus) : Prop :=
  forall request_id, ~ (is_open request_id s /\ is_archived request_id s).

(** ** Vocabulary for the statements about [oracle_call] *)


(** A list of times, none before [lo], each at least [poll_interval]
    after the one before. *)
Fixpoint spaced_from (lo : Z) (times : list Z) : Prop :=
  match times with
  | [] => True
  | t :: rest => lo <= t /\ spaced_from (t + poll_interval) rest
  end.

(** The request record [oracle_call] builds. *)
Definition request_record (request_id question context urgency : string) (now : Z) : dict :=
  [("id", VStr request_id);
   ("type", VStr "oracle_call");
   ("from_level", VInt 2);
   ("to_level", VInt 3);
   ("question", VStr question);
   ("context", VStr context);
   ("urgency", VStr urgency);
   ("timestamp", VStr (Clock.isoformat now));
   ("status", VStr "pending")].

(** The response record a call leaves. *)
Definition response_record (request_data : dict) (c : responder_call) : dict :=
  [("id", VStr (call_id c));
   ("type", VStr "oracle_response");
   ("question", get request_data "question" (VStr ""));
   ("answer", VStr (call_answer c));
   ("responder", VStr "oracle");
   ("timestamp", VStr (Clock.isoformat (at_ms c)))].

(** A value that is text, so that it can be sliced and upper-cased. *)
Definition is_text (v : value) : Prop :=
  match v with
  | VStr _ => True
  | VInt _ => False
  end.

(** A file that [json.load] reads. *)
Definition parses (c : content) : Prop :=
  match c with
  | Json _ => True
  | Garbage _ => False
  end.

(** A request file whose line [bus_status] can print. *)
Definition status_ready (c : content) : Prop :=
  match c with
  | Json req =>
      is_text (get req "urgency" (VStr "normal")) /\ is_text (get req "question" (VStr "?"))
  | Garbage _ => False
  end.

(** Archived files whose lines [bus_history] can print. *)
Definition question_ready (c : content) : Prop :=
  match c with
  | Json req => is_text (get req "question" (VStr "?"))
  | Garbage _ => False
  end.

Definition answer_ready (c : content) : Prop :=
  match c with
  | Json resp => is_text (get resp "answer" (VStr "(no answer)"))
  | Garbage _ => False
  end.

Definition history_ready (s : bus) : Prop :=
  forall stamp dir, history s !! stamp = Some dir ->
    (forall request_id c, request_files dir !! request_id = Some c -> question_ready c)
    /\ (forall request_id c, response_files dir !! request_id = Some c -> answer_ready c).

(** ** The calls to the file system, one at a time

    The operations are not atomic: other processes run between two calls
    to the file system, and the code takes no lock.  A configuration is
    the store together with the responders that have read their request
    and not yet written their response, each with the id and the record
    it is about to write. *)

Definition config : Type := bus * list (string * dict).

(** [open(resp_path, "w")] and [json.dump] of [respond_to_oracle_call]. *)
Definition write_response (request_id : string) (data : dict) (s : bus) : bus :=
  {| requests := requests s;
     responses := <[request_id := Json data]> (responses s);
     history := history s |}.

(** [_write_request] (for an id of any kind: the code does not look
    whether it is in use), the test and read of a responder, its write,
    and the three calls of [_archive_exchange]. *)
Inductive syscall : config -> config -> Prop :=
| sys_write_request request_id data s ws :
    syscall (s, ws) (_write_request request_id data s, ws)
| sys_respond_read c request_data s ws :
    requests s !! call_id c = Some (Json request_data) ->
    syscall (s, ws) (s, (call_id c, response_record request_data c) :: ws)
| sys_respond_write request_id data s ws ws' :
    syscall (s, ws ++ (request_id, data) :: ws') (write_response request_id data s, ws ++ ws')
| sys_mkdir stamp s ws :
    syscall (s, ws) (mkdir stamp s, ws)
| sys_rename_request request_id stamp s s' ws :
    rename_request request_id stamp s = Ok s' ->
    syscall (s, ws) (s', ws)
| sys_rename_response request_id stamp s s' ws :
    rename_response request_id stamp s = Ok s' ->
    syscall (s, ws) (s', ws).

(** An id that the store has never seen. *)
Definition fresh (request_id : string) (s : bus) : Prop :=
  ~ is_open request_id s /\ ~ is_archived request_id s.

(** Every response has its request beside it: among the open records,
    and inside every history directory. *)
Definition paired (s : bus) : Prop :=
  (forall request_id, is_Some (responses s !! request_id) ->
                      is_Some (requests s !! request_id))
  /\ (forall stamp dir request_id, history s !! stamp = Some dir ->
        is_Some (response_files dir !! request_id) ->
        is_Some (request_files dir !! request_id)).

(** What the caller of [oracle_call] gets to see of a call: what it
    returned or raised, when, and after which lookups. *)
Definition observed (o : outcome) : result string * Z * list Z :=
  (returned o, finished_at o, polls o).

(** The characters of an id drawn by [oracle_call]: digits and the
    letters [a] to [f]. *)
Definition hex_char (c : ascii) : Prop :=
  (48 <= N_of_ascii c <= 57 \/ 97 <= N_of_ascii c <= 102)%N.

(** * Properties *)

Example strftime_epoch : Clock.strftime 0 = "19700101_000000".
Proof. vm_compute. reflexivity. Qed.

Example strftime_1700000000 : Clock.strftime 1700000000123 = "20231114_221320".
Proof. vm_compute. reflexivity. Qed.

Example isoformat_1700000000 :
  Clock.isoformat 1700000000123 = "2023-11-14T22:13:20.123000+00:00"
  /\ Clock.isoformat 951782400000 = "2000-02-29T00:00:00+00:00".
Proof. vm_compute. split; reflexivity. Qed.

Example uuid_str_sample :
  Uuid.uuid_str (Uuid.uuid4 (2 ^ 128 - 1)) = "ffffffff-ffff-4fff-bfff-ffffffffffff"
  /\ Uuid.request_id_of 0 = "00000000".
Proof. vm_compute. split; reflexivity. Qed.

(** ** The archiver *)

Lemma bus_eq (s1 s2 : bus) :
  requests s1 = requests s2 -> responses s1 = responses s2 -> history s1 = history s2 ->
  s1 = s2.
Proof. destruct s1, s2; simpl; intros; subst; reflexivity. Qed.

Lemma mkdir_requests stamp s : requests (mkdir stamp s) = requests s.
Proof. unfold mkdir. destruct (history s !! stamp); reflexivity. Qed.

Lemma mkdir_responses stamp s : responses (mkdir stamp s) = responses s.
Proof. unfold mkdir. destruct (history s !! stamp); reflexivity. Qed.

Lemma mkdir_history stamp s :
  history (mkdir stamp s) = <[stamp := default empty_dir (history s !! stamp)]> (history s).
Proof.
  unfold mkdir. destruct (history s !! stamp) as [dir|] eqn:E; simpl.
  - symmetry. apply insert_id. exact E.
  - reflexivity.
Qed.

Lemma mkdir_lookup stamp s :
  history (mkdir stamp s) !! stamp = Some (default empty_dir (history s !! stamp)).
Proof. rewrite mkdir_history. apply lookup_insert_eq. Qed.

(** [_archive_exchange] never raises, and leaves [archived]. *)
Lemma _archive_exchange_archived now request_id s :
  _archive_exchange now request_id s = Ok (archived (Clock.strftime now) request_id s).
Proof.
  unfold _archive_exchange, _archive_exchange_request.
  set (stamp := Clock.strftime now).
  pose proof (mkdir_lookup stamp s) as Hdir.
  pose proof (mkdir_history stamp s) as Hhist.
  pose proof (mkdir_requests stamp s) as Hreq.
  pose proof (mkdir_responses stamp s) as Hresp.
  set (dir := default empty_dir (history s !! stamp)) in *.
  destruct (requests s !! request_id) as [c|] eqn:Ec.
  - rewrite decide_True by (rewrite Hreq, Ec; eauto).
    unfold rename_request. rewrite Hreq, Ec, Hdir. simpl.
    destruct (responses s !! request_id) as [c'|] eqn:Ec'.
    + rewrite decide_True by (rewrite Hresp, Ec'; eauto).
      unfold rename_response. simpl. rewrite Hresp, Ec', lookup_insert_eq.
      f_equal. apply bus_eq; simpl.
      * reflexivity.
      * reflexivity.
      * rewrite Hhist, !insert_insert_eq. f_equal.
        unfold moved_into. rewrite Ec, Ec'. reflexivity.
    + rewrite decide_False by (rewrite Hresp, Ec'; intros [? ?]; discriminate).
      f_equal. apply bus_eq; simpl.
      * reflexivity.
      * rewrite Hresp. symmetry. apply delete_id. exact Ec'.
      * rewrite Hhist, insert_insert_eq. f_equal.
        unfold moved_into. rewrite Ec, Ec'. reflexivity.
  - rewrite decide_False by (rewrite Hreq, Ec; intros [? ?]; discriminate).
    simpl.
    destruct (responses s !! request_id) as [c'|] eqn:Ec'.
    + rewrite decide_True by (rewrite Hresp, Ec'; eauto).
      unfold rename_response. rewrite Hresp, Ec', Hdir.
      f_equal. apply bus_eq; simpl.
      * rewrite Hreq. symmetry. apply delete_id. exact Ec.
      * reflexivity.
      * rewrite Hhist, insert_insert_eq. f_equal.
        unfold moved_into. rewrite Ec, Ec'. reflexivity.
    + rewrite decide_False by (rewrite Hresp, Ec'; intros [? ?]; discriminate).
      f_equal. apply bus_eq; simpl.
      * rewrite Hreq. symmetry. apply delete_id. exact Ec.
      * rewrite Hresp. symmetry. apply delete_id. exact Ec'.
      * rewrite Hhist. f_equal.
        unfold moved_into. rewrite Ec, Ec'. subst dir.
        destruct (default empty_dir (history s !! stamp)); reflexivity.
Qed.

Lemma archived_requests stamp request_id s :
  requests (archived stamp request_id s) !! request_id = None.
Proof. apply lookup_delete_eq. Qed.

Lemma archived_responses stamp request_id s :
  responses (archived stamp request_id s) !! request_id = None.
Proof. apply lookup_delete_eq. Qed.

Lemma archived_not_open stamp request_id s :
  ~ is_open request_id (archived stamp request_id s).
Proof.
  unfold is_open. rewrite archived_requests, archived_responses.
  intros [[? H]|[? H]]; discriminate H.
Qed.

(** With nothing open under the id, archiving only makes the directory. *)
Lemma archived_nothing stamp request_id s :
  ~ is_open request_id s -> archived stamp request_id s = mkdir stamp s.
Proof.
  intros Hno. unfold is_open in Hno.
  assert (requests s !! request_id = None) as Hq
    by (destruct (requests s !! request_id) eqn:E; [exfalso; eauto | reflexivity]).
  assert (responses s !! request_id = None) as Hp
    by (destruct (responses s !! request_id) eqn:E; [exfalso; eauto | reflexivity]).
  apply bus_eq.
  - rewrite mkdir_requests. simpl. apply delete_id. exact Hq.
  - rewrite mkdir_responses. simpl. apply delete_id. exact Hp.
  - rewrite mkdir_history. simpl. f_equal. unfold moved_into. rewrite Hq, Hp.
    destruct (default empty_dir (history s !! stamp)); reflexivity.
Qed.

Lemma mkdir_existing stamp s :
  is_Some (history s !! stamp) -> mkdir stamp s = s.
Proof.
  intros [dir Hdir]. unfold mkdir. rewrite Hdir. reflexivity.
Qed.

Lemma historical_exchanges_mkdir stamp s :
  Inspector.historical_exchanges (mkdir stamp s) =
  match history s !! stamp with
  | Some _ => Inspector.historical_exchanges s
  | None => S (Inspector.historical_exchanges s)
  end.
Proof.
  unfold Inspector.historical_exchanges. rewrite !length_map_to_list.
  unfold mkdir. destruct (history s !! stamp) eqn:E; simpl.
  - reflexivity.
  - apply map_size_insert_None. exact E.
Qed.

(** C2 (amended): two archive calls in succession for one id.  The first
    leaves [s1]; the second moves no record and leaves both open
    directories as they are, but it still makes the history directory of
    its own second: when that directory is there already (as when both
    calls fall in the same second) the store is [s1] again, otherwise the
    history has one more, empty, directory and the count of historical
    exchanges that [bus_status] reports is one higher.  The same holds of
    any call that finds nothing to archive. *)
Theorem archive_twice (now now' : Z) (request_id : string) (s : bus) :
  exists s1 s2,
    _archive_exchange now request_id s = Ok s1
    /\ _archive_exchange now' request_id s1 = Ok s2
    /\ requests s2 = requests s1
    /\ responses s2 = responses s1
    /\ match history s1 !! Clock.strftime now' with
       | Some _ => s2 = s1
       | None =>
           history s2 = <[Clock.strftime now' := empty_dir]> (history s1)
           /\ Inspector.historical_exchanges s2 = S (Inspector.historical_exchanges s1)
       end
    /\ (if decide (Clock.strftime now' = Clock.strftime now) then s2 = s1 else True)
    /\ (if decide (is_open request_id s) then True
        else s1 = mkdir (Clock.strftime now) s).
Proof.
  exists (archived (Clock.strftime now) request_id s).
  exists (mkdir (Clock.strftime now') (archived (Clock.strftime now) request_id s)).
  set (s1 := archived (Clock.strftime now) request_id s).
  split; [apply _archive_exchange_archived|].
  split.
  { rewrite _archive_exchange_archived. f_equal.
    apply archived_nothing, archived_not_open. }
  split; [apply mkdir_requests|].
  split; [apply mkdir_responses|].
  split.
  { destruct (history s1 !! Clock.strftime now') as [dir|] eqn:E.
    - apply mkdir_existing. eauto.
    - split.
      + rewrite mkdir_history, E. reflexivity.
      + rewrite historical_exchanges_mkdir, E. reflexivity. }
  split.
  { case_decide as Heq; [|exact I].
    apply mkdir_existing. rewrite Heq. subst s1. simpl.
    rewrite lookup_insert_eq. eauto. }
  case_decide as Hopen; [exact I|].
  apply archived_nothing. exact Hopen.
Qed.

(** C2 (as stated) fails: a request archived at second 0 and archived
    again one second later.  The second call finds nothing to move, yet
    the history grows from one directory to two and [bus_status] reports
    two historical exchanges instead of one. *)
Lemma archive_twice_not_idempotent :
  let s := _write_request "0a1b2c3d" [("id", VStr "0a1b2c3d")] empty_bus in
  match _archive_exchange 0 "0a1b2c3d" s with
  | Ok s1 =>
      match _archive_exchange 1000 "0a1b2c3d" s1 with
      | Ok s2 =>
          s2 <> s1
          /\ Inspector.bus_status "/bus" s1 =
             Ok (join_lines ["=== Ordinal Bus Status ==="; "Bus directory: /bus";
                             "Pending requests: 0"; "Pending responses: 0";
                             "Historical exchanges: 1"; ""])
          /\ Inspector.bus_status "/bus" s2 =
             Ok (join_lines ["=== Ordinal Bus Status ==="; "Bus directory: /bus";
                             "Pending requests: 0"; "Pending responses: 0";
                             "Historical exchanges: 2"; ""])
      | Raise _ => False
      end
  | Raise _ => False
  end.
Proof.
  vm_compute. split; [|split; reflexivity].
  intros H. discriminate H.
Qed.

(** ** The response recorder *)

(** The record [respond_to_oracle_call] writes. *)
Lemma respond_recorded now request_id answer s request_data :
  requests s !! request_id = Some (Json request_data) ->
  respond_to_oracle_call now request_id answer s =
  (Ok ("Response recorded for request " +:+ request_id +:+
       ". The caller will receive it shortly."),
   {| requests := requests s;
      responses :=
        <[request_id :=
            Json [("id", VStr request_id);
                  ("type", VStr "oracle_response");
                  ("question", get request_data "question" (VStr ""));
                  ("answer", VStr answer);
                  ("responder", VStr "oracle");
                  ("timestamp", VStr (Clock.isoformat now))]]> (responses s);
      history := history s |}).
Proof. intros H. unfold respond_to_oracle_call. rewrite H. reflexivity. Qed.

Lemma respond_requests now request_id answer s :
  requests (respond_to_oracle_call now request_id answer s).2 = requests s.
Proof.
  unfold respond_to_oracle_call.
  destruct (requests s !! request_id) as [[d|raw]|]; reflexivity.
Qed.

Lemma respond_history now request_id answer s :
  history (respond_to_oracle_call now request_id answer s).2 = history s.
Proof.
  unfold respond_to_oracle_call.
  destruct (requests s !! request_id) as [[d|raw]|]; reflexivity.
Qed.

Lemma respond_other now request_id answer s other :
  other <> request_id ->
  responses (respond_to_oracle_call now request_id answer s).2 !! other = responses s !! other.
Proof.
  intros Hne. unfold respond_to_oracle_call.
  destruct (requests s !! request_id) as [[d|raw]|]; simpl; try reflexivity.
  apply lookup_insert_ne. congruence.
Qed.

Lemma respond_absent now request_id answer s :
  requests s !! request_id = None ->
  (respond_to_oracle_call now request_id answer s).2 = s.
Proof. intros Hnone. unfold respond_to_oracle_call. rewrite Hnone. reflexivity. Qed.

(** On the store of records, with no request under the key,
    [respond_to_oracle_call] returns its not-found message and the store
    it leaves is the store it found. *)
Theorem respond_not_found (now : Z) (request_id answer : string) (s : bus) :
  requests s !! request_id = None ->
  respond_to_oracle_call now request_id answer s =
  (Ok ("No pending request found with ID: " +:+ request_id), s).
Proof.
  intros Hnone. unfold respond_to_oracle_call. rewrite Hnone. reflexivity.
Qed.

(** At a request that was archived a moment before the answer came. *)
Lemma respond_not_found_witness :
  let s := archived "20240101_120000" "0a1b2c3d"
             (_write_request "0a1b2c3d" [("id", VStr "0a1b2c3d")]
                (_write_request "77e0f9aa" [("id", VStr "77e0f9aa")] empty_bus)) in
  requests s !! "0a1b2c3d" = None
  /\ respond_to_oracle_call 1704110401000 "0a1b2c3d" "yes" s =
     (Ok "No pending request found with ID: 0a1b2c3d", s).
Proof.
  split.
  - vm_compute. reflexivity.
  - apply (respond_not_found 1704110401000 "0a1b2c3d" "yes"). vm_compute. reflexivity.
Defined.

(** C10: with an open request under the id, a second
    [respond_to_oracle_call] replaces the response record of the first:
    both calls return the recorded message, and the store is the one the
    second call alone would have left, holding the second answer. *)
Theorem respond_overwrites (now1 now2 : Z) (request_id answer1 answer2 : string)
    (s : bus) (request_data : dict) :
  requests s !! request_id = Some (Json request_data) ->
  let recorded :=
    Ok ("Response recorded for request " +:+ request_id +:+
        ". The caller will receive it shortly.") in
  let first := respond_to_oracle_call now1 request_id answer1 s in
  let second := respond_to_oracle_call now2 request_id answer2 first.2 in
  first.1 = recorded
  /\ second.1 = recorded
  /\ second.2 = (respond_to_oracle_call now2 request_id answer2 s).2
  /\ responses second.2 !! request_id =
     Some (Json [("id", VStr request_id);
                 ("type", VStr "oracle_response");
                 ("question", get request_data "question" (VStr ""));
                 ("answer", VStr answer2);
                 ("responder", VStr "oracle");
                 ("timestamp", VStr (Clock.isoformat now2))]).
Proof.
  intros Hreq recorded first second. subst first second recorded.
  rewrite (respond_recorded now1 _ answer1 _ _ Hreq). simpl.
  rewrite !(respond_recorded now2 _ answer2 _ request_data) by exact Hreq.
  simpl. repeat split.
  - f_equal. apply insert_insert_eq.
  - apply lookup_insert_eq.
Qed.

(** C10 at two different answers to one pending question. *)
Lemma respond_overwrites_witness :
  let s := _write_request "0a1b2c3d"
             [("id", VStr "0a1b2c3d"); ("question", VStr "Pick A or B?")] empty_bus in
  let second :=
    respond_to_oracle_call 2000 "0a1b2c3d" "B"
      (respond_to_oracle_call 1000 "0a1b2c3d" "A" s).2 in
  requests s !! "0a1b2c3d" =
    Some (Json [("id", VStr "0a1b2c3d"); ("question", VStr "Pick A or B?")])
  /\ get (match responses second.2 !! "0a1b2c3d" with
          | Some (Json d) => d
          | _ => []
          end) "answer" (VStr "") = VStr "B".
Proof.
  split.
  - vm_compute. reflexivity.
  - pose proof (respond_overwrites 1000 2000 "0a1b2c3d" "A" "B"
                  (_write_request "0a1b2c3d"
                     [("id", VStr "0a1b2c3d"); ("question", VStr "Pick A or B?")] empty_bus)
                  [("id", VStr "0a1b2c3d"); ("question", VStr "Pick A or B?")]
                  eq_refl) as H.
    cbv zeta in H. destruct H as (_ & _ & _ & H).
    cbv zeta. rewrite H. reflexivity.
Defined.

(** ** Open and archived ids *)

Lemma is_open_write_request other request_id data s :
  is_open other (_write_request request_id data s) ->
  other = request_id \/ is_open other s.
Proof.
  unfold is_open. simpl. destruct (decide (other = request_id)) as [->|Hne]; [eauto|].
  rewrite lookup_insert_ne by congruence. eauto.
Qed.

Lemma is_open_respond other now request_id answer s :
  is_open other (respond_to_oracle_call now request_id answer s).2 -> is_open other s.
Proof.
  unfold is_open. rewrite respond_requests.
  intros [Hq|Hp]; [eauto|].
  destruct (decide (other = request_id)) as [->|Hne].
  - unfold respond_to_oracle_call in Hp.
    destruct (requests s !! request_id) as [c|] eqn:E; [eauto|].
    simpl in Hp. eauto.
  - rewrite respond_other in Hp by exact Hne. eauto.
Qed.

Lemma is_open_archived other stamp request_id s :
  is_open other (archived stamp request_id s) -> other <> request_id /\ is_open other s.
Proof.
  intros Hopen. destruct (decide (other = request_id)) as [->|Hne].
  - exfalso. exact (archived_not_open _ _ _ Hopen).
  - split; [exact Hne|]. unfold is_open in *. simpl in Hopen.
    rewrite !lookup_delete_ne in Hopen by congruence. exact Hopen.
Qed.

Lemma in_dir_moved_into other request_id s dir :
  other <> request_id -> in_dir other (moved_into request_id s dir) <-> in_dir other dir.
Proof.
  intros Hne. unfold in_dir, moved_into. simpl.
  destruct (requests s !! request_id), (responses s !! request_id);
    rewrite ?lookup_insert_ne by congruence; reflexivity.
Qed.

Lemma not_in_empty_dir request_id : ~ in_dir request_id empty_dir.
Proof.
  unfold in_dir, empty_dir. simpl. rewrite !lookup_empty.
  intros [[? H]|[? H]]; discriminate H.
Qed.

Lemma is_archived_archived other stamp request_id s :
  other <> request_id ->
  is_archived other (archived stamp request_id s) <-> is_archived other s.
Proof.
  intros Hne. unfold is_archived. simpl. split.
  - intros (stamp' & dir & Hdir & Hin).
    destruct (decide (stamp' = stamp)) as [->|Hs].
    + rewrite lookup_insert_eq in Hdir. injection Hdir as <-.
      apply in_dir_moved_into in Hin; [|exact Hne].
      destruct (history s !! stamp) as [dir0|] eqn:E; simpl in Hin.
      * eauto.
      * exfalso. exact (not_in_empty_dir _ Hin).
    + rewrite lookup_insert_ne in Hdir by congruence. eauto.
  - intros (stamp' & dir & Hdir & Hin).
    destruct (decide (stamp' = stamp)) as [->|Hs].
    + eexists stamp, _. rewrite lookup_insert_eq. split; [reflexivity|].
      apply in_dir_moved_into; [exact Hne|]. rewrite Hdir. exact Hin.
    + exists stamp', dir. rewrite lookup_insert_ne by congruence. eauto.
Qed.

Lemma exclusive_empty : exclusive empty_bus.
Proof.
  intros request_id [[[? H]|[? H]] _]; simpl in H; rewrite lookup_empty in H; discriminate H.
Qed.

Lemma exclusive_archived stamp request_id s :
  exclusive s -> exclusive (archived stamp request_id s).
Proof.
  intros Hex other [Hopen Harch].
  apply is_open_archived in Hopen as [Hne Hopen].
  apply is_archived_archived in Harch; [|exact Hne].
  exact (Hex other (conj Hopen Harch)).
Qed.

Lemma exclusive_step s s' : step s s' -> exclusive s -> exclusive s'.
Proof.
  intros Hstep Hex. destruct Hstep as
    [request_id data s Hfresh Hnew | now request_id answer s
    | now request_id response s s' _ Harch | now request_id data s s' Harch].
  - intros other [Hopen Harch].
    apply is_open_write_request in Hopen as [->|Hopen].
    + exact (Hnew Harch).
    + exact (Hex other (conj Hopen Harch)).
  - intros other [Hopen Harch].
    apply is_open_respond in Hopen.
    unfold is_archived in Harch. rewrite respond_history in Harch.
    exact (Hex other (conj Hopen Harch)).
  - rewrite _archive_exchange_archived in Harch. injection Harch as <-.
    apply exclusive_archived, Hex.
  - rewrite _archive_exchange_archived in Harch. injection Harch as <-.
    intros other [Hopen Harch].
    apply is_open_archived in Hopen as [Hne Hopen].
    apply is_archived_archived in Harch; [|exact Hne].
    apply is_open_write_request in Hopen as [->|Hopen]; [congruence|].
    exact (Hex other (conj Hopen Harch)).
Qed.

Lemma exclusive_reachable s : reachable s -> exclusive s.
Proof.
  unfold reachable. intros Hreach.
  refine (rtc_ind_r (R := step) (fun s => exclusive s) empty_bus exclusive_empty _ s Hreach).
  intros s1 s2 _ Hstep IH. exact (exclusive_step _ _ Hstep IH).
Qed.

(** A completed archive call: nothing of the id stays open, and what was
    open lies in the directory of the call's second. *)
Lemma archived_together stamp request_id s :
  exists dir,
    history (archived stamp request_id s) !! stamp = Some dir
    /\ (forall c, requests s !! request_id = Some c ->
                  request_files dir !! request_id = Some c)
    /\ (forall c, responses s !! request_id = Some c ->
                  response_files dir !! request_id = Some c).
Proof.
  eexists. simpl. rewrite lookup_insert_eq. split; [reflexivity|].
  unfold moved_into. simpl. split; intros c Hc; rewrite Hc; apply lookup_insert_eq.
Qed.

(** C1 (amended): when the operations run one after the other, each to
    its end, and each new request is written under an id that the store
    and the history do not hold yet, then in every store reached no id is
    both open and archived; and an archive call run to its end leaves
    nothing of the id open and has put its request and its response,
    whichever were open, into the one directory of its second.  (The code
    takes no lock and does not check a drawn id; without either condition
    the exclusion fails.) *)
Theorem archive_exclusive (s : bus) :
  reachable s ->
  exclusive s
  /\ forall now request_id,
       exists s' dir,
         _archive_exchange now request_id s = Ok s'
         /\ ~ is_open request_id s'
         /\ history s' !! Clock.strftime now = Some dir
         /\ (forall c, requests s !! request_id = Some c ->
                       request_files dir !! request_id = Some c)
         /\ (forall c, responses s !! request_id = Some c ->
                       response_files dir !! request_id = Some c).
Proof.
  intros Hreach. split; [apply exclusive_reachable, Hreach|].
  intros now request_id.
  destruct (archived_together (Clock.strftime now) request_id s) as (dir & Hdir & Hq & Hp).
  exists (archived (Clock.strftime now) request_id s), dir.
  split; [apply _archive_exchange_archived|].
  split; [apply archived_not_open|].
  split; [exact Hdir|]. split; assumption.
Qed.

(** C1 at the store an answered question leaves before it is archived. *)
Lemma archive_exclusive_witness :
  let s := (respond_to_oracle_call 1000 "0a1b2c3d" "A"
              (_write_request "0a1b2c3d" [("id", VStr "0a1b2c3d")] empty_bus)).2 in
  reachable s /\ exclusive s.
Proof.
  cbv zeta.
  assert (reachable
            (respond_to_oracle_call 1000 "0a1b2c3d" "A"
               (_write_request "0a1b2c3d" [("id", VStr "0a1b2c3d")] empty_bus)).2) as Hreach.
  { unfold reachable.
    eapply rtc_l; [|eapply rtc_l; [|apply rtc_refl]].
    - apply (step_issue "0a1b2c3d" [("id", VStr "0a1b2c3d")] empty_bus).
      + intros [[? H]|[? H]]; vm_compute in H; discriminate H.
      + intros (stamp & dir & H & _). vm_compute in H. discriminate H.
    - apply step_respond. }
  split; [exact Hreach|].
  exact (proj1 (archive_exclusive _ Hreach)).
Defined.

(** Inside [_archive_exchange], once the request of an answered question
    has been renamed into the history and before the response is, the id
    is archived (its request) and open (its response) at once. *)
Lemma archive_partial_observable :
  let s := (respond_to_oracle_call 1000 "0a1b2c3d" "A"
              (_write_request "0a1b2c3d" [("id", VStr "0a1b2c3d")] empty_bus)).2 in
  match _archive_exchange_request 2000 "0a1b2c3d" s with
  | Ok mid =>
      is_open "0a1b2c3d" mid /\ is_archived "0a1b2c3d" mid
      /\ requests mid !! "0a1b2c3d" = None
      /\ responses mid !! "0a1b2c3d" = responses s !! "0a1b2c3d"
      /\ is_Some (responses s !! "0a1b2c3d")
      /\ ~ exclusive mid
  | Raise _ => False
  end.
Proof.
  cbv zeta.
  set (s := (respond_to_oracle_call 1000 "0a1b2c3d" "A"
               (_write_request "0a1b2c3d" [("id", VStr "0a1b2c3d")] empty_bus)).2).
  destruct (_archive_exchange_request 2000 "0a1b2c3d" s) as [mid|e] eqn:E;
    [|vm_compute in E; discriminate E].
  assert (is_open "0a1b2c3d" mid) as Hopen.
  { right. vm_compute in E. injection E as <-. vm_compute. eauto. }
  assert (is_archived "0a1b2c3d" mid) as Harch.
  { vm_compute in E. injection E as <-.
    exists "19700101_000002". eexists. split; [vm_compute; reflexivity|].
    left. vm_compute. eauto. }
  split; [exact Hopen|]. split; [exact Harch|].
  split; [vm_compute in E; injection E as <-; vm_compute; reflexivity|].
  split; [vm_compute in E; injection E as <-; vm_compute; reflexivity|].
  split; [vm_compute; eauto|].
  intros Hex. exact (Hex "0a1b2c3d" (conj Hopen Harch)).
Qed.

(** ** What the responders can and cannot change *)

Lemma responder_runs_requests calls s :
  requests (responder_runs calls s) = requests s.
Proof.
  revert s. induction calls as [|c calls IH]; intros s; simpl; [reflexivity|].
  unfold responder_runs in *. simpl. rewrite IH. apply respond_requests.
Qed.

Lemma responder_runs_history calls s :
  history (responder_runs calls s) = history s.
Proof.
  revert s. induction calls as [|c calls IH]; intros s; simpl; [reflexivity|].
  unfold responder_runs in *. simpl. rewrite IH. apply respond_history.
Qed.


(** Without an open request, calls for [request_id] write nothing. *)
Lemma responder_runs_no_request request_id calls s :
  requests s !! request_id = None ->
  responses (responder_runs calls s) !! request_id = responses s !! request_id.
Proof.
  revert s. induction calls as [|c calls IH]; intros s Hnone; simpl; [reflexivity|].
  unfold responder_runs in *. simpl. rewrite IH.
  - destruct (decide (call_id c = request_id)) as [Heq|Hne].
    + rewrite Heq, respond_absent by exact Hnone. reflexivity.
    + apply respond_other. congruence.
  - rewrite respond_requests. exact Hnone.
Qed.


(** ** The wait loop *)

Section IssuerFacts.

Variable lag : nat -> N.
Variables (request_id : string) (request_data : dict).
Variables (timeout_seconds start_time : Z).

Abbreviation loop := (wait_loop lag request_id request_data timeout_seconds start_time).
Abbreviation timed_out_data := (set request_data "status" (VStr "timeout")).

(** Past the deadline the loop body is not entered: the request is
    rewritten and archived, whatever the store holds. *)
Lemma wait_loop_deadline fuel k now script s seen :
  timeout_seconds * 1000 <= now - start_time ->
  loop (S fuel) k now script s seen =
  Some {| returned := Ok (timeout_message request_id timeout_seconds);
          final := archived (Clock.strftime now) request_id
                     (_write_request request_id timed_out_data s);
          finished_at := now;
          polls := seen;
          pending := script |}.
Proof.
  intros Hlate. simpl.
  replace (now - start_time <? timeout_seconds * 1000) with false
    by (symmetry; apply Z.ltb_ge; exact Hlate).
  rewrite _archive_exchange_archived. reflexivity.
Qed.

(** A response found before the deadline ends the call. *)
Lemma wait_loop_found fuel k now script s seen response :
  now - start_time < timeout_seconds * 1000 ->
  responses s !! request_id = Some (Json response) ->
  loop (S fuel) k now script s seen =
  Some {| returned := Ok (response_message response);
          final := archived (Clock.strftime now) request_id s;
          finished_at := now;
          polls := seen ++ [now];
          pending := script |}.
Proof.
  intros Hearly Hresp. simpl.
  replace (now - start_time <? timeout_seconds * 1000) with true
    by (symmetry; apply Z.ltb_lt; exact Hearly).
  unfold _read_response. rewrite Hresp. simpl.
  rewrite _archive_exchange_archived. reflexivity.
Qed.

(** No response before the deadline: sleep, let the responders run, look
    again. *)
Lemma wait_loop_sleep fuel k now script s seen :
  now - start_time < timeout_seconds * 1000 ->
  responses s !! request_id = None ->
  loop (S fuel) k now script s seen =
  let now' := now + poll_interval + Z.of_N (lag k) in
  loop fuel (S k) now' (later now' script) (responder_runs (due now' script) s)
    (seen ++ [now]).
Proof.
  intros Hearly Hresp. simpl.
  replace (now - start_time <? timeout_seconds * 1000) with true
    by (symmetry; apply Z.ltb_lt; exact Hearly).
  unfold _read_response. rewrite Hresp. reflexivity.
Qed.

(** A response file that does not parse ends the call with the
    exception of [json.load]. *)
Lemma wait_loop_garbage fuel k now script s seen raw :
  now - start_time < timeout_seconds * 1000 ->
  responses s !! request_id = Some (Garbage raw) ->
  loop (S fuel) k now script s seen =
  Some {| returned := Raise JSONDecodeError;
          final := s;
          finished_at := now;
          polls := seen ++ [now];
          pending := script |}.
Proof.
  intros Hearly Hresp. simpl.
  replace (now - start_time <? timeout_seconds * 1000) with true
    by (symmetry; apply Z.ltb_lt; exact Hearly).
  unfold _read_response. rewrite Hresp. reflexivity.
Qed.

(** The loop ends: each sleep brings the deadline at least
    [poll_interval] nearer. *)
Lemma wait_loop_terminates fuel k now script s seen :
  timeout_seconds * 1000 - (now - start_time) <= poll_interval * (Z.of_nat fuel - 1) ->
  (0 < fuel)%nat ->
  exists o, loop fuel k now script s seen = Some o.
Proof.
  revert k now script s seen.
  induction fuel as [|fuel IH]; intros k now script s seen Hfuel Hpos; [lia|].
  destruct (Z.lt_ge_cases (now - start_time) (timeout_seconds * 1000)) as [Hearly|Hlate].
  - destruct (responses s !! request_id) as [[response|raw]|] eqn:Hresp.
    + rewrite (wait_loop_found _ _ _ _ _ _ _ Hearly Hresp). eauto.
    + rewrite (wait_loop_garbage _ _ _ _ _ _ _ Hearly Hresp). eauto.
    + rewrite (wait_loop_sleep _ _ _ _ _ _ Hearly Hresp). cbv zeta.
      unfold poll_interval in *. apply IH; lia.
  - rewrite (wait_loop_deadline _ _ _ _ _ _ Hlate). eauto.
Qed.

(** More fuel does not change the result. *)
Lemma wait_loop_fuel fuel fuel' k now script s seen o :
  loop fuel k now script s seen = Some o ->
  (fuel <= fuel')%nat ->
  loop fuel' k now script s seen = Some o.
Proof.
  revert fuel' k now script s seen.
  induction fuel as [|fuel IH]; intros fuel' k now script s seen Hrun Hle; [discriminate Hrun|].
  destruct fuel' as [|fuel']; [lia|].
  destruct (Z.lt_ge_cases (now - start_time) (timeout_seconds * 1000)) as [Hearly|Hlate].
  - destruct (responses s !! request_id) as [[response|raw]|] eqn:Hresp.
    + rewrite (wait_loop_found fuel _ _ _ _ _ _ Hearly Hresp) in Hrun.
      rewrite (wait_loop_found fuel' _ _ _ _ _ _ Hearly Hresp). exact Hrun.
    + rewrite (wait_loop_garbage fuel _ _ _ _ _ _ Hearly Hresp) in Hrun.
      rewrite (wait_loop_garbage fuel' _ _ _ _ _ _ Hearly Hresp). exact Hrun.
    + rewrite (wait_loop_sleep fuel _ _ _ _ _ Hearly Hresp) in Hrun.
      rewrite (wait_loop_sleep fuel' _ _ _ _ _ Hearly Hresp). cbv zeta in *.
      apply IH; [exact Hrun|lia].
  - rewrite (wait_loop_deadline fuel _ _ _ _ _ Hlate) in Hrun.
    rewrite (wait_loop_deadline fuel' _ _ _ _ _ Hlate). exact Hrun.
Qed.

End IssuerFacts.

(** ** [oracle_call] with no time to wait *)

(** C9: with [timeout_seconds <= 0] the loop body never runs.  No lookup
    of the response is made ([polls] is empty), the request is rewritten
    with status timeout (the archived record is the request as written,
    with that one field changed) and archived at once, and the timeout
    message is returned; a response record already in the store under the
    id is moved to the history unread. *)
Theorem oracle_call_no_wait (random : N) (lag : nat -> N) (script : list responder_call)
    (fuel : nat) (question context urgency : string) (timeout_seconds now : Z) (s : bus) :
  timeout_seconds <= 0 ->
  let request_id := Uuid.request_id_of random in
  let data := request_record request_id question context urgency now in
  let s0 := _write_request request_id data (responder_runs (due now script) s) in
  exists o dir,
    oracle_call random lag script (S fuel) question context urgency timeout_seconds now s
      = Some o
    /\ returned o =
       Ok ("Oracle call timed out after " +:+ pretty timeout_seconds +:+
           "s. The oracle did not respond. Request ID: " +:+ request_id)
    /\ polls o = []
    /\ finished_at o = now
    /\ final o = archived (Clock.strftime now) request_id
                   (_write_request request_id (set data "status" (VStr "timeout")) s0)
    /\ ~ is_open request_id (final o)
    /\ history (final o) !! Clock.strftime now = Some dir
    /\ request_files dir !! request_id = Some (Json (set data "status" (VStr "timeout")))
    /\ response_files dir !! request_id =
       match responses s0 !! request_id with
       | Some c => Some c
       | None => response_files (default empty_dir (history s !! Clock.strftime now))
                   !! request_id
       end
    /\ set data "status" (VStr "timeout") =
       [("id", VStr request_id);
        ("type", VStr "oracle_call");
        ("from_level", VInt 2);
        ("to_level", VInt 3);
        ("question", VStr question);
        ("context", VStr context);
        ("urgency", VStr urgency);
        ("timestamp", VStr (Clock.isoformat now));
        ("status", VStr "timeout")]
    /\ get (set data "status" (VStr "timeout")) "status" (VStr "pending") = VStr "timeout".
Proof.
  intros Hzero request_id data s0.
  unfold oracle_call. fold request_id. fold (request_record request_id question context urgency now).
  fold data. fold s0.
  rewrite wait_loop_deadline by lia.
  eexists _, _. split; [reflexivity|]. simpl.
  rewrite lookup_insert_eq.
  repeat split.
  - apply archived_not_open.
  - unfold moved_into. simpl. rewrite lookup_insert_eq. apply lookup_insert_eq.
  - unfold moved_into. simpl.
    destruct (responses (responder_runs (due now script) s) !! request_id) as [c|] eqn:E.
    + apply lookup_insert_eq.
    + rewrite responder_runs_history. reflexivity.
Qed.

(** C9 at a call with [timeout_seconds = 0] on a store that already
    holds a response under the id the call draws. *)
Lemma oracle_call_no_wait_witness :
  let s := {| requests := ∅;
              responses := {["00000000" := Json [("answer", VStr "stale")]]};
              history := ∅ |} in
  0 <= 0
  /\ exists o,
       oracle_call 0 (fun _ => 0%N) [] 1 "Deploy to prod?" "" "normal" 0 0 s = Some o
       /\ polls o = []
       /\ returned o =
          Ok "Oracle call timed out after 0s. The oracle did not respond. Request ID: 00000000".
Proof.
  cbv zeta. split; [lia|].
  destruct (oracle_call_no_wait 0 (fun _ => 0%N) [] 0 "Deploy to prod?" "" "normal" 0 0
              {| requests := ∅;
                 responses := {["00000000" := Json [("answer", VStr "stale")]]};
                 history := ∅ |} ltac:(lia))
    as (o & dir & Hrun & Hret & Hpolls & _).
  exists o. split; [exact Hrun|]. split; [exact Hpolls|]. exact Hret.
Defined.

(** ** How long [oracle_call] waits, and how often it looks *)

Lemma spaced_from_mono lo lo' times :
  lo <= lo' -> spaced_from lo' times -> spaced_from lo times.
Proof.
  destruct times as [|t rest]; simpl; [tauto|].
  intros Hle [Hlo Hrest]. split; [lia|exact Hrest].
Qed.

(** In a spaced list, neighbours are [poll_interval] apart or more. *)
Lemma spaced_from_lookup lo times i t t' :
  spaced_from lo times ->
  times !! i = Some t -> times !! S i = Some t' -> t + poll_interval <= t'.
Proof.
  revert lo i. induction times as [|x rest IH]; intros lo i Hsp Ht Ht'; [discriminate Ht|].
  destruct Hsp as [_ Hrest]. destruct i as [|i]; simpl in *.
  - injection Ht as ->. destruct rest as [|y rest']; [discriminate Ht'|].
    simpl in Ht'. injection Ht' as ->. simpl in Hrest. lia.
  - exact (IH _ _ Hrest Ht Ht').
Qed.

Section IssuerTiming.

Variable lag : nat -> N.
Variables (request_id : string) (request_data : dict).
Variables (timeout_seconds start_time : Z).
Variable max_lag : Z.
Hypothesis lag_le : forall k, Z.of_N (lag k) <= max_lag.

Abbreviation loop := (wait_loop lag request_id request_data timeout_seconds start_time).

(** The lookups of a run: spaced, each before the deadline; and the run
    ends where it started or within one sleep of a moment before the
    deadline. *)
Lemma wait_loop_timing fuel k now script s seen o :
  loop fuel k now script s seen = Some o ->
  now <= finished_at o
  /\ (exists news, polls o = seen ++ news /\ spaced_from now news
                   /\ forall t, t ∈ news -> t - start_time < timeout_seconds * 1000)
  /\ (finished_at o = now
      \/ finished_at o - start_time < timeout_seconds * 1000 + poll_interval + max_lag).
Proof.
  revert k now script s seen.
  induction fuel as [|fuel IH]; intros k now script s seen Hrun; [discriminate Hrun|].
  destruct (Z.lt_ge_cases (now - start_time) (timeout_seconds * 1000)) as [Hearly|Hlate].
  - assert (spaced_from now [now]
            /\ forall t, t ∈ [now] -> t - start_time < timeout_seconds * 1000) as Hone.
    { split; [simpl; lia|]. intros t Ht. apply list_elem_of_singleton in Ht as ->. exact Hearly. }
    destruct (responses s !! request_id) as [[response|raw]|] eqn:Hresp.
    + rewrite (wait_loop_found _ _ _ _ _ _ _ _ _ _ _ _ Hearly Hresp) in Hrun.
      injection Hrun as <-. simpl. split; [lia|]. split; [|left; reflexivity].
      exists [now]. split; [reflexivity|exact Hone].
    + rewrite (wait_loop_garbage _ _ _ _ _ _ _ _ _ _ _ _ Hearly Hresp) in Hrun.
      injection Hrun as <-. simpl. split; [lia|]. split; [|left; reflexivity].
      exists [now]. split; [reflexivity|exact Hone].
    + rewrite (wait_loop_sleep _ _ _ _ _ _ _ _ _ _ _ Hearly Hresp) in Hrun.
      cbv zeta in Hrun. apply IH in Hrun as (Hge & (news & Hpolls & Hsp & Hbefore) & Hend).
      pose proof (lag_le k) as Hlag. pose proof (N2Z.is_nonneg (lag k)) as Hlag0.
      unfold poll_interval in *.
      split; [lia|]. split.
      * exists (now :: news). split; [rewrite Hpolls, <- app_assoc; reflexivity|].
        split.
        -- simpl. split; [lia|]. eapply spaced_from_mono; [|exact Hsp].
           unfold poll_interval. lia.
        -- intros t Ht. apply elem_of_cons in Ht as [->|Ht]; [exact Hearly|apply Hbefore, Ht].
      * right. destruct Hend as [->|Hend]; lia.
  - rewrite (wait_loop_deadline _ _ _ _ _ _ _ _ _ _ _ Hlate) in Hrun.
    injection Hrun as <-. simpl. split; [lia|]. split; [|left; reflexivity].
    exists []. split; [rewrite app_nil_r; reflexivity|].
    split; [exact I|]. intros t Ht. inversion Ht.
Qed.

End IssuerTiming.

(** A run ends with a message, or with the exception of [json.load] on a
    response file that does not parse. *)
Lemma wait_loop_returned lag request_id request_data timeout_seconds start_time
    fuel k now script s seen o :
  wait_loop lag request_id request_data timeout_seconds start_time fuel k now script s seen
    = Some o ->
  (exists msg, returned o = Ok msg)
  \/ (returned o = Raise JSONDecodeError
      /\ exists raw, responses (final o) !! request_id = Some (Garbage raw)).
Proof.
  revert k now script s seen.
  induction fuel as [|fuel IH]; intros k now script s seen Hrun; [discriminate Hrun|].
  destruct (Z.lt_ge_cases (now - start_time) (timeout_seconds * 1000)) as [Hearly|Hlate].
  - destruct (responses s !! request_id) as [[response|raw]|] eqn:Hresp.
    + rewrite (wait_loop_found _ _ _ _ _ _ _ _ _ _ _ _ Hearly Hresp) in Hrun.
      injection Hrun as <-. left. simpl. eauto.
    + rewrite (wait_loop_garbage _ _ _ _ _ _ _ _ _ _ _ _ Hearly Hresp) in Hrun.
      injection Hrun as <-. right. simpl. eauto.
    + rewrite (wait_loop_sleep _ _ _ _ _ _ _ _ _ _ _ Hearly Hresp) in Hrun.
      exact (IH _ _ _ _ _ Hrun).
  - rewrite (wait_loop_deadline _ _ _ _ _ _ _ _ _ _ _ Hlate) in Hrun.
    injection Hrun as <-. left. simpl. eauto.
Qed.

(** C5 (amended): [oracle_call] ends, given fuel for one unfolding of its
    loop per poll interval of the timeout and two more, and it ends
    once, with a message or with the exception raised on a response file
    that does not parse.  Two successive lookups are at least
    [poll_interval] apart and every lookup is made before the timeout has
    elapsed.  The wait itself can exceed the timeout: the call ends at
    once, or less than one sleep ([poll_interval] and the lag of
    [asyncio.sleep], at most [max_lag]) after the timeout has elapsed. *)
Theorem oracle_call_wait_bounded (random : N) (lag : nat -> N)
    (script : list responder_call) (fuel : nat) (question context urgency : string)
    (timeout_seconds now : Z) (s : bus) (max_lag : Z) :
  (forall k, Z.of_N (lag k) <= max_lag) ->
  (Z.to_nat (timeout_seconds * 1000 / poll_interval) + 2 <= fuel)%nat ->
  exists o,
    oracle_call random lag script fuel question context urgency timeout_seconds now s = Some o
    /\ ((exists msg, returned o = Ok msg) \/ returned o = Raise JSONDecodeError)
    /\ (forall i t t', polls o !! i = Some t -> polls o !! S i = Some t' ->
                       t + poll_interval <= t')
    /\ (forall t, t ∈ polls o -> t - now < timeout_seconds * 1000)
    /\ now <= finished_at o
    /\ (finished_at o = now
        \/ finished_at o - now < timeout_seconds * 1000 + poll_interval + max_lag).
Proof.
  intros Hlag Hfuel. unfold oracle_call.
  match goal with
  | |- exists o, wait_loop ?l ?i ?d ?t ?st ?f ?k ?n ?sc ?s0 ?sn = Some o /\ _ =>
      destruct (wait_loop_terminates l i d t st f k n sc s0 sn) as [o Hrun]
  end.
  { assert (0 <= timeout_seconds * 1000 / poll_interval
            \/ timeout_seconds * 1000 / poll_interval < 0) as Hsign by lia.
    pose proof (Z.mod_pos_bound (timeout_seconds * 1000) poll_interval ltac:(reflexivity)).
    pose proof (Z.div_mod (timeout_seconds * 1000) poll_interval ltac:(discriminate)).
    unfold poll_interval in *. lia. }
  { lia. }
  exists o. split; [exact Hrun|].
  pose proof (wait_loop_returned _ _ _ _ _ _ _ _ _ _ _ _ Hrun) as Hret.
  pose proof (wait_loop_timing _ _ _ _ _ _ Hlag _ _ _ _ _ _ _ Hrun)
    as (Hge & (news & Hpolls & Hsp & Hbefore) & Hend).
  rewrite app_nil_l in Hpolls. subst news.
  split; [destruct Hret as [Hok|[Hraise _]]; [left; exact Hok|right; exact Hraise]|].
  split; [intros i t t'; apply (spaced_from_lookup _ _ _ _ _ Hsp)|].
  split; [exact Hbefore|]. split; [exact Hge|exact Hend].
Qed.

(** C5 at the scenario of the specification: a timeout of five seconds,
    no responder, sleeps of exactly the poll interval. *)
Lemma oracle_call_wait_bounded_witness :
  (forall k : nat, Z.of_N ((fun _ => 0%N) k) <= 0)
  /\ (Z.to_nat (5 * 1000 / poll_interval) + 2 <= 4)%nat
  /\ exists o,
       oracle_call 0 (fun _ => 0%N) [] 4 "Deploy to prod?" "" "normal" 5 0 empty_bus = Some o
       /\ (finished_at o = 0 \/ finished_at o - 0 < 5 * 1000 + poll_interval + 0).
Proof.
  assert (forall k : nat, Z.of_N ((fun _ => 0%N) k) <= 0) as Hlag by (intros k; simpl; lia).
  assert (Z.to_nat (5 * 1000 / poll_interval) + 2 <= 4)%nat as Hfuel by (vm_compute; lia).
  split; [exact Hlag|]. split; [exact Hfuel|].
  destruct (oracle_call_wait_bounded 0 (fun _ => 0%N) [] 4 "Deploy to prod?" "" "normal"
              5 0 empty_bus 0 Hlag Hfuel) as (o & Hrun & _ & _ & _ & _ & Hend).
  exists o. split; [exact Hrun|exact Hend].
Defined.

(** C5 (as stated) fails: with a timeout of five seconds and no
    responder the call looks at 0, 2 and 4 seconds, sleeps once more and
    returns at 6 seconds, one second past the timeout. *)
Lemma oracle_call_overshoots_timeout :
  match oracle_call 0 (fun _ => 0%N) [] 4 "Deploy to prod?" "" "normal" 5 0 empty_bus with
  | Some o =>
      polls o = [0; 2000; 4000]
      /\ finished_at o - 0 = 6000
      /\ 5 * 1000 < finished_at o - 0
      /\ returned o =
         Ok "Oracle call timed out after 5s. The oracle did not respond. Request ID: 00000000"
  | None => False
  end.
Proof. vm_compute. repeat split; reflexivity. Qed.

(** ** Where an exchange lies once it is archived *)


Lemma in_dir_moved_into_open request_id s dir :
  is_open request_id s -> in_dir request_id (moved_into request_id s dir).
Proof.
  unfold is_open, in_dir, moved_into. simpl. intros [[c Hc]|[c Hc]]; rewrite Hc.
  - left. rewrite lookup_insert_eq. eauto.
  - right. rewrite lookup_insert_eq. eauto.
Qed.


Lemma is_open_write_request_same request_id data s :
  is_open request_id (_write_request request_id data s).
Proof. left. simpl. rewrite lookup_insert_eq. eauto. Qed.

(** ** A call that nobody answers in time *)

Section IssuerQuiet.

Variable lag : nat -> N.
Variables (request_id : string) (request_data : dict).
Variables (timeout_seconds start_time : Z).

Abbreviation loop := (wait_loop lag request_id request_data timeout_seconds start_time).
Abbreviation timed_out_data := (set request_data "status" (VStr "timeout")).


End IssuerQuiet.



Lemma fresh_empty request_id : fresh request_id empty_bus.
Proof.
  split.
  - intros [[? H]|[? H]]; simpl in H; rewrite lookup_empty in H; discriminate H.
  - intros (stamp & dir & H & _). simpl in H. rewrite lookup_empty in H. discriminate H.
Qed.



(** ** A call that is answered in time for a lookup *)



Section IssuerAnswered.

Variable lag : nat -> N.
Variables (request_id : string) (request_data : dict).
Variables (timeout_seconds start_time : Z).
Variable script0 : list responder_call.

Abbreviation loop := (wait_loop lag request_id request_data timeout_seconds start_time).


End IssuerAnswered.


(** C3 at its failing input: a timeout of five seconds and a response
    recorded 4.5 seconds after the request was written.  The responder is
    told that the caller will receive the answer; the caller looks at 0, 2
    and 4 seconds, sleeps until 6 seconds, finds the deadline passed and
    returns the timeout message without another lookup.  The unread
    response is archived with the request. *)
Theorem oracle_call_misses_late_response :
  let script := [ {| at_ms := 4500; call_id := "00000000"; call_answer := "A" |} ] in
  let data := request_record "00000000" "Pick A or B?" "" "normal" 0 in
  (0 < 4500 /\ 4500 - 0 < 5 * 1000)
  /\ (respond_to_oracle_call 4500 "00000000" "A" (_write_request "00000000" data empty_bus)).1
     = Ok "Response recorded for request 00000000. The caller will receive it shortly."
  /\ match oracle_call 0 (fun _ => 0%N) script 4 "Pick A or B?" "" "normal" 5 0 empty_bus with
     | Some o =>
         returned o =
           Ok "Oracle call timed out after 5s. The oracle did not respond. Request ID: 00000000"
         /\ polls o = [0; 2000; 4000]
         /\ finished_at o = 6000
         /\ match history (final o) !! "19700101_000006" with
            | Some dir =>
                response_files dir !! "00000000" =
                Some (Json (response_record data
                              {| at_ms := 4500; call_id := "00000000"; call_answer := "A" |}))
            | None => False
            end
     | None => False
     end.
Proof. vm_compute. repeat split; reflexivity. Qed.

(** ** Request identifiers *)

Section UuidFacts.

Local Open Scope N_scope.

Lemma hex_digit_inj a b :
  a < 16 -> b < 16 -> Uuid.hex_digit a = Uuid.hex_digit b -> a = b.
Proof.
  intros Ha Hb H. unfold Uuid.hex_digit in H.
  destruct (a <? 10) eqn:Ea; destruct (b <? 10) eqn:Eb;
    apply (f_equal N_of_ascii) in H; rewrite !N_ascii_embedding in H by lia;
    try apply N.ltb_lt in Ea; try apply N.ltb_ge in Ea;
    try apply N.ltb_lt in Eb; try apply N.ltb_ge in Eb; lia.
Qed.

Lemma mod_pow16_succ x (w : nat) :
  x mod 16 ^ N.of_nat (S w) =
  x mod 16 ^ N.of_nat w + 16 ^ N.of_nat w * ((x / 16 ^ N.of_nat w) mod 16).
Proof.
  rewrite Nat2N.inj_succ, N.pow_succ_r', (N.mul_comm 16). apply N.Div0.mod_mul_r.
Qed.

(** Two numbers have the same [w] hexadecimal digits exactly when they
    agree modulo [16 ^ w]. *)
Lemma hex_fixed_eq_iff (w : nat) x y :
  Uuid.hex_fixed w x = Uuid.hex_fixed w y <-> x mod 16 ^ N.of_nat w = y mod 16 ^ N.of_nat w.
Proof.
  induction w as [|w IH].
  - simpl. rewrite !N.mod_1_r. tauto.
  - cbn [Uuid.hex_fixed]. rewrite !mod_pow16_succ.
    assert (0 < 16 ^ N.of_nat w) as Hpos by (apply N.neq_0_lt_0, N.pow_nonzero; discriminate).
    pose proof (N.mod_lt x (16 ^ N.of_nat w) ltac:(lia)) as Hx.
    pose proof (N.mod_lt y (16 ^ N.of_nat w) ltac:(lia)) as Hy.
    pose proof (N.mod_lt (x / 16 ^ N.of_nat w) 16 ltac:(discriminate)) as Hdx.
    pose proof (N.mod_lt (y / 16 ^ N.of_nat w) 16 ltac:(discriminate)) as Hdy.
    split.
    + intros H. injection H as Hd Ht.
      apply hex_digit_inj in Hd; [|assumption..]. apply IH in Ht.
      rewrite Hd, Ht. reflexivity.
    + intros H. rewrite (N.add_comm (x mod _)), (N.add_comm (y mod _)) in H.
      apply N.div_mod_unique in H as [Hd Ht]; [|assumption..].
      rewrite Hd. f_equal. apply IH, Ht.
Qed.

Lemma hex_fixed_app (a b : nat) n :
  Uuid.hex_fixed (a + b) n = Uuid.hex_fixed a (n / 16 ^ N.of_nat b) +:+ Uuid.hex_fixed b n.
Proof.
  induction a as [|a IH]; [reflexivity|].
  cbn [Uuid.hex_fixed Nat.add String.app]. rewrite IH. f_equal. f_equal.
  rewrite N.Div0.div_div, <- N.pow_add_r, Nat2N.inj_add, N.add_comm. reflexivity.
Qed.

Lemma length_hex_fixed (w : nat) n : String.length (Uuid.hex_fixed w n) = w.
Proof. induction w as [|w IH]; simpl; [reflexivity|]. rewrite IH. reflexivity. Qed.

Lemma substring_prefix (n : nat) s t :
  String.length s = n -> String.substring 0 n (s +:+ t) = s.
Proof.
  revert n. induction s as [|c s IH]; intros n Hn; simpl in Hn; subst n.
  - destruct t; reflexivity.
  - simpl. rewrite IH; reflexivity.
Qed.

(** The request id is the top eight hexadecimal digits of the UUID. *)
Lemma request_id_of_hex random :
  Uuid.request_id_of random = Uuid.hex_fixed 8 (Uuid.uuid4 random / 16 ^ 24).
Proof.
  unfold Uuid.request_id_of, Uuid.uuid_str.
  change 32%nat with (8 + 24)%nat. rewrite hex_fixed_app. cbv zeta.
  change (N.of_nat 24) with 24.
  rewrite (substring_prefix 8 (Uuid.hex_fixed 8 _) (Uuid.hex_fixed 24 _))
    by apply length_hex_fixed.
  apply substring_prefix, length_hex_fixed.
Qed.

(** Forcing the version and variant bits leaves bits 96 to 127 as drawn. *)
Lemma uuid4_top random :
  (Uuid.uuid4 random / 2 ^ 96) mod 2 ^ 32 = (random / 2 ^ 96) mod 2 ^ 32.
Proof.
  apply N.bits_inj. intros i.
  destruct (N.lt_ge_cases i 32) as [Hlow|Hhigh].
  - rewrite !N.mod_pow2_bits_low, !N.div_pow2_bits by exact Hlow.
    unfold Uuid.uuid4.
    rewrite N.lor_spec, N.ldiff_spec, N.lor_spec, N.ldiff_spec, N.land_spec.
    rewrite !N.shiftl_spec_high' by lia.
    rewrite (N.bits_above_log2 4), (N.bits_above_log2 61440),
      (N.bits_above_log2 32768), (N.bits_above_log2 49152) by (simpl; lia).
    rewrite N.ones_spec_low by lia.
    simpl. rewrite !andb_true_r, !orb_false_r. reflexivity.
  - rewrite !N.mod_pow2_bits_high by exact Hhigh. reflexivity.
Qed.

End UuidFacts.

(** C8 (amended): the id of a request is the first eight hexadecimal
    digits of the UUID drawn for it, thirty-two of its random bits.  Two
    calls get the same id exactly when their draws agree on those bits
    (bits 96 to 127); the code does not look whether an id is in use. *)
Theorem request_id_of_equal (random1 random2 : N) :
  String.length (Uuid.request_id_of random1) = 8%nat
  /\ (Uuid.request_id_of random1 = Uuid.request_id_of random2
      <-> ((random1 / 2 ^ 96) mod 2 ^ 32 = (random2 / 2 ^ 96) mod 2 ^ 32)%N).
Proof.
  rewrite !request_id_of_hex. split; [apply length_hex_fixed|].
  rewrite hex_fixed_eq_iff, <- (uuid4_top random1), <- (uuid4_top random2).
  reflexivity.
Qed.

(** C8 (as stated) fails: two calls whose UUIDs differ, and that get the
    same request id all the same. *)
Lemma request_id_of_collision :
  Uuid.uuid_str (Uuid.uuid4 0) = "00000000-0000-4000-8000-000000000000"
  /\ Uuid.uuid_str (Uuid.uuid4 1) = "00000000-0000-4000-8000-000000000001"
  /\ Uuid.uuid4 0 <> Uuid.uuid4 1
  /\ Uuid.request_id_of 0 = Uuid.request_id_of 1.
Proof.
  vm_compute. repeat split; try reflexivity. intros H. discriminate H.
Qed.

(** ** The inspector on readable and on unreadable records *)

Lemma for_each_ok {A} (body : A -> result (list string)) (l : list A) :
  (forall x, x ∈ l -> exists ys, body x = Ok ys) ->
  exists zs, Inspector.for_each body l = Ok zs.
Proof.
  induction l as [|x l IH]; intros Hall; simpl; [eauto|].
  destruct (Hall x ltac:(left)) as [ys ->]. simpl.
  destruct IH as [zs ->]; [intros y Hy; apply Hall; right; exact Hy|].
  simpl. eauto.
Qed.


Lemma pending_lines_ok file :
  parses file.2 -> exists ys, Inspector.pending_lines file = Ok ys.
Proof.
  unfold Inspector.pending_lines. destruct file as [name [req|raw]]; simpl; [eauto|tauto].
Qed.


Lemma status_line_ok file :
  status_ready file.2 -> exists ys, Inspector.status_line file = Ok ys.
Proof.
  unfold Inspector.status_line. destruct file as [name [req|raw]]; simpl; [|tauto].
  intros [Hu Hq].
  destruct (get req "urgency" (VStr "normal")); [|contradiction].
  destruct (get req "question" (VStr "?")); [|contradiction].
  simpl. eauto.
Qed.

Lemma history_request_lines_ok file :
  question_ready file.2 -> exists ys, Inspector.history_request_lines file = Ok ys.
Proof.
  unfold Inspector.history_request_lines. destruct file as [name [req|raw]]; simpl; [|tauto].
  intros Hq. destruct (get req "question" (VStr "?")); [|contradiction]. simpl. eauto.
Qed.

Lemma history_response_lines_ok file :
  answer_ready file.2 -> exists ys, Inspector.history_response_lines file = Ok ys.
Proof.
  unfold Inspector.history_response_lines. destruct file as [name [resp|raw]]; simpl; [|tauto].
  intros Ha. destruct (get resp "answer" (VStr "(no answer)")); [|contradiction].
  simpl. eauto.
Qed.

Lemma list_pending_calls_ok s :
  (forall request_id c, requests s !! request_id = Some c -> parses c) ->
  exists text, Inspector.list_pending_calls s = Ok text.
Proof.
  intros Hall. unfold Inspector.list_pending_calls.
  destruct (map_to_list (requests s)) as [|file files] eqn:E; [eauto|].
  rewrite <- E.
  match goal with
  | |- context [Inspector.for_each ?body ?l] => destruct (for_each_ok body l) as [zs ->]
  end.
  - intros [name c] Hin. rewrite merge_sort_Permutation in Hin.
    apply elem_of_map_to_list in Hin. apply pending_lines_ok. simpl. eauto.
  - simpl. eauto.
Qed.


Lemma bus_status_ok BUS_DIR s :
  (forall request_id c, requests s !! request_id = Some c -> status_ready c) ->
  exists text, Inspector.bus_status BUS_DIR s = Ok text.
Proof.
  intros Hall. unfold Inspector.bus_status.
  destruct (map_to_list (requests s)) as [|file files] eqn:E; [simpl; eauto|].
  rewrite <- E.
  match goal with
  | |- context [Inspector.for_each ?body ?l] => destruct (for_each_ok body l) as [zs ->]
  end.
  - intros [name c] Hin. rewrite merge_sort_Permutation in Hin.
    apply elem_of_map_to_list in Hin. apply status_line_ok. simpl. eauto.
  - rewrite E. simpl. eauto.
Qed.



Lemma elem_of_take_to {A} (limit : Z) (l : list A) x : x ∈ take_to limit l -> x ∈ l.
Proof. unfold take_to. destruct (0 <=? limit); apply subseteq_take. Qed.

Lemma history_dir_lines_ok entry :
  (forall request_id c, request_files entry.2 !! request_id = Some c -> question_ready c) ->
  (forall request_id c, response_files entry.2 !! request_id = Some c -> answer_ready c) ->
  exists ys, Inspector.history_dir_lines entry = Ok ys.
Proof.
  intros Hq Ha. unfold Inspector.history_dir_lines.
  destruct (for_each_ok Inspector.history_request_lines
              (map_to_list (request_files entry.2))) as [qs ->].
  { intros [name c] Hin. apply elem_of_map_to_list in Hin.
    apply history_request_lines_ok. simpl. eauto. }
  destruct (for_each_ok Inspector.history_response_lines
              (map_to_list (response_files entry.2))) as [rs ->].
  { intros [name c] Hin. apply elem_of_map_to_list in Hin.
    apply history_response_lines_ok. simpl. eauto. }
  simpl. eauto.
Qed.

Lemma bus_history_ok limit s :
  history_ready s -> exists text, Inspector.bus_history limit s = Ok text.
Proof.
  intros Hready. unfold Inspector.bus_history.
  match goal with
  | |- context [take_to limit ?l] =>
      assert (forall entry, entry ∈ take_to limit l -> entry ∈ map_to_list (history s)) as Hsub;
      [|destruct (take_to limit l) as [|entry entries] eqn:E; [eauto|]]
  end.
  { intros entry Hin. apply elem_of_take_to in Hin.
    apply (proj1 (elem_of_reverse _ _)) in Hin.
    rewrite merge_sort_Permutation in Hin. exact Hin. }
  destruct (for_each_ok Inspector.history_dir_lines (entry :: entries)) as [zs ->].
  - intros [stamp dir] Hin. apply Hsub, elem_of_map_to_list in Hin.
    destruct (Hready stamp dir Hin) as [Hq Ha].
    apply history_dir_lines_ok; assumption.
  - simpl. eauto.
Qed.




(** The readable case at a store with one open request: the three
    listings return. *)
Example listings_return_example :
  let s := _write_request "0a1b2c3d"
             (request_record "0a1b2c3d" "Deploy to prod?" "" "normal" 0) empty_bus in
  (exists text, Inspector.list_pending_calls s = Ok text)
  /\ (exists text, Inspector.bus_status "/bus" s = Ok text)
  /\ (exists text, Inspector.bus_history 10 s = Ok text).
Proof.
  cbv zeta.
  set (s := _write_request "0a1b2c3d"
              (request_record "0a1b2c3d" "Deploy to prod?" "" "normal" 0) empty_bus).
  assert (forall request_id c, requests s !! request_id = Some c -> status_ready c) as Hready.
  { intros request_id c Hc. subst s. simpl in Hc.
    destruct (decide (request_id = "0a1b2c3d")) as [->|Hne].
    - rewrite lookup_insert_eq in Hc. injection Hc as <-. split; exact I.
    - rewrite lookup_insert_ne, lookup_empty in Hc by congruence. discriminate Hc. }
  split; [|split].
  - apply list_pending_calls_ok. intros request_id c Hc.
    specialize (Hready request_id c Hc). destruct c; [exact I|contradiction].
  - apply bus_status_ok, Hready.
  - apply bus_history_ok. intros stamp dir Hdir. subst s. simpl in Hdir.
    rewrite lookup_empty in Hdir. discriminate Hdir.
Qed.


(** * Further properties of the bus *)

(** ** What one call leaves alone *)

(** On the store of records, [respond_to_oracle_call] writes at most one
    record, the response under its key.  The requests and the history are
    as before, the responses under other keys are as before, and no
    response that was there is gone. *)
Theorem respond_frame (now : Z) (request_id answer : string) (s : bus) :
  let s' := (respond_to_oracle_call now request_id answer s).2 in
  requests s' = requests s
  /\ history s' = history s
  /\ (forall other, other <> request_id -> responses s' !! other = responses s !! other)
  /\ (forall other, is_Some (responses s !! other) -> is_Some (responses s' !! other)).
Proof.
  cbv zeta. split; [apply respond_requests|]. split; [apply respond_history|].
  split; [intros other Hne; apply respond_other, Hne|].
  intros other Hsome. destruct (decide (other = request_id)) as [->|Hne].
  - unfold respond_to_oracle_call.
    destruct (requests s !! request_id) as [[d|raw]|]; simpl; try exact Hsome.
    rewrite lookup_insert_eq. eauto.
  - rewrite respond_other by exact Hne. exact Hsome.
Qed.

Lemma moved_into_other other request_id s dir :
  other <> request_id ->
  request_files (moved_into request_id s dir) !! other = request_files dir !! other
  /\ response_files (moved_into request_id s dir) !! other = response_files dir !! other.
Proof.
  intros Hne. unfold moved_into. simpl.
  destruct (requests s !! request_id), (responses s !! request_id);
    rewrite ?lookup_insert_ne by congruence; split; reflexivity.
Qed.

(** X2: [_archive_exchange] touches the records of its id only.  The
    open records of every other id stay where they are; every history
    directory that was there is still there, with the same records of the
    other ids; and the directories of other seconds are not touched at
    all. *)
Theorem archive_frame (now : Z) (request_id : string) (s : bus) :
  exists s',
    _archive_exchange now request_id s = Ok s'
    /\ (forall other, other <> request_id ->
          requests s' !! other = requests s !! other
          /\ responses s' !! other = responses s !! other
          /\ forall stamp dir, history s !! stamp = Some dir ->
               exists dir', history s' !! stamp = Some dir'
                 /\ request_files dir' !! other = request_files dir !! other
                 /\ response_files dir' !! other = response_files dir !! other)
    /\ (forall stamp, stamp <> Clock.strftime now ->
          history s' !! stamp = history s !! stamp).
Proof.
  exists (archived (Clock.strftime now) request_id s).
  split; [apply _archive_exchange_archived|]. split.
  - intros other Hne. simpl. rewrite !lookup_delete_ne by congruence.
    split; [reflexivity|]. split; [reflexivity|].
    intros stamp dir Hdir.
    destruct (decide (stamp = Clock.strftime now)) as [->|Hs].
    + eexists. rewrite lookup_insert_eq. split; [reflexivity|].
      rewrite Hdir. simpl. apply moved_into_other, Hne.
    + exists dir. rewrite lookup_insert_ne by congruence. eauto.
  - intros stamp Hs. simpl. apply lookup_insert_ne. congruence.
Qed.

(** ** How the recorder, the reader and the archiver compose *)

(** X3: what [respond_to_oracle_call] records is what [_read_response]
    reads back: the answer given, the responder "oracle", the id and the
    question of the open request; the issuer's message for it names that
    responder and that answer. *)
Theorem respond_then_read (now : Z) (request_id answer : string) (s : bus)
    (request_data : dict) :
  requests s !! request_id = Some (Json request_data) ->
  exists response,
    _read_response request_id (respond_to_oracle_call now request_id answer s).2
      = Ok (Some response)
    /\ get response "answer" (VStr "(no answer provided)") = VStr answer
    /\ get response "responder" (VStr "oracle") = VStr "oracle"
    /\ get response "id" (VStr "?") = VStr request_id
    /\ get response "question" (VStr "?") = get request_data "question" (VStr "")
    /\ response_message response = "Oracle response (oracle): " +:+ answer.
Proof.
  intros Hreq. rewrite (respond_recorded _ _ _ _ _ Hreq). simpl.
  unfold _read_response. simpl. rewrite lookup_insert_eq. simpl.
  eexists. split; [reflexivity|]. repeat split.
Qed.

(** X3 at a pending question. *)
Lemma respond_then_read_witness :
  let s := _write_request "0a1b2c3d"
             (request_record "0a1b2c3d" "Pick A or B?" "" "normal" 0) empty_bus in
  requests s !! "0a1b2c3d" =
    Some (Json (request_record "0a1b2c3d" "Pick A or B?" "" "normal" 0))
  /\ exists response,
       _read_response "0a1b2c3d" (respond_to_oracle_call 1500 "0a1b2c3d" "A" s).2
         = Ok (Some response)
       /\ get response "question" (VStr "?") = VStr "Pick A or B?".
Proof.
  cbv zeta. split; [vm_compute; reflexivity|].
  destruct (respond_then_read 1500 "0a1b2c3d" "A"
              (_write_request "0a1b2c3d"
                 (request_record "0a1b2c3d" "Pick A or B?" "" "normal" 0) empty_bus)
              (request_record "0a1b2c3d" "Pick A or B?" "" "normal" 0) eq_refl)
    as (response & Hread & _ & _ & _ & Hq & _).
  exists response. split; [exact Hread|]. rewrite Hq. reflexivity.
Defined.

(** X4: an answer that comes after the exchange was archived is turned
    down and changes nothing: after [_archive_exchange] for an id,
    [respond_to_oracle_call] for that id returns the not-found message and
    the store it was given. *)
Theorem respond_after_archive (now now' : Z) (request_id answer : string) (s : bus) :
  exists s',
    _archive_exchange now request_id s = Ok s'
    /\ respond_to_oracle_call now' request_id answer s' =
       (Ok ("No pending request found with ID: " +:+ request_id), s').
Proof.
  exists (archived (Clock.strftime now) request_id s).
  split; [apply _archive_exchange_archived|].
  unfold respond_to_oracle_call. rewrite archived_requests. reflexivity.
Qed.

(** ** What the steps of the bus keep *)

Lemma in_dir_moved_into_mono other request_id s dir :
  in_dir other dir -> in_dir other (moved_into request_id s dir).
Proof.
  destruct (decide (other = request_id)) as [->|Hne].
  - unfold in_dir, moved_into. simpl.
    intros [Hq|Hp]; [left|right].
    + destruct (requests s !! request_id); [rewrite lookup_insert_eq; eauto|exact Hq].
    + destruct (responses s !! request_id); [rewrite lookup_insert_eq; eauto|exact Hp].
  - intros Hin. apply in_dir_moved_into; assumption.
Qed.

Lemma is_archived_archived_mono other stamp request_id s :
  is_archived other s -> is_archived other (archived stamp request_id s).
Proof.
  intros (stamp' & dir & Hdir & Hin). unfold is_archived. simpl.
  destruct (decide (stamp' = stamp)) as [->|Hs].
  - eexists stamp, _. rewrite lookup_insert_eq. split; [reflexivity|].
    rewrite Hdir. simpl. apply in_dir_moved_into_mono, Hin.
  - exists stamp', dir. rewrite lookup_insert_ne by congruence. eauto.
Qed.

Lemma is_archived_archived_same stamp request_id s :
  is_open request_id s -> is_archived request_id (archived stamp request_id s).
Proof.
  intros Hopen. eexists stamp, _. simpl. rewrite lookup_insert_eq.
  split; [reflexivity|]. apply in_dir_moved_into_open, Hopen.
Qed.

Lemma is_open_archived_other other stamp request_id s :
  other <> request_id -> is_open other s -> is_open other (archived stamp request_id s).
Proof.
  intros Hne Hopen. unfold is_open in *. simpl.
  rewrite !lookup_delete_ne by congruence. exact Hopen.
Qed.

Lemma is_open_write_request_mono other request_id data s :
  is_open other s -> is_open other (_write_request request_id data s).
Proof.
  unfold is_open. simpl. intros [Hq|Hp]; [left|right; exact Hp].
  destruct (decide (other = request_id)) as [->|Hne].
  - rewrite lookup_insert_eq. eauto.
  - rewrite lookup_insert_ne by congruence. exact Hq.
Qed.

Lemma is_open_respond_mono other now request_id answer s :
  is_open other s -> is_open other (respond_to_oracle_call now request_id answer s).2.
Proof.
  unfold is_open. rewrite respond_requests. intros [Hq|Hp]; [left; exact Hq|right].
  destruct (decide (other = request_id)) as [->|Hne].
  - unfold respond_to_oracle_call.
    destruct (requests s !! request_id) as [[d|raw]|]; simpl; try exact Hp.
    rewrite lookup_insert_eq. eauto.
  - rewrite respond_other by exact Hne. exact Hp.
Qed.

Lemma size_history_archived stamp request_id s :
  (size (history s) <= size (history (archived stamp request_id s)))%nat.
Proof.
  simpl. rewrite map_size_insert. destruct (history s !! stamp); simpl; lia.
Qed.

(** One step loses nothing: what is archived stays archived, what is
    open stays open or becomes archived, and no history directory goes. *)
Lemma step_keeps s s' :
  step s s' ->
  forall request_id,
    (is_archived request_id s -> is_archived request_id s')
    /\ (is_open request_id s -> is_open request_id s' \/ is_archived request_id s')
    /\ (size (history s) <= size (history s'))%nat.
Proof.
  intros Hstep other. destruct Hstep as
    [request_id data s _ _ | now request_id answer s
    | now request_id response s s' _ Harch | now request_id data s s' Harch].
  - split; [intros H; exact H|].
    split; [intros H; left; apply is_open_write_request_mono, H|simpl; lia].
  - split; [unfold is_archived; rewrite respond_history; tauto|].
    split; [intros H; left; apply is_open_respond_mono, H|].
    rewrite respond_history. lia.
  - rewrite _archive_exchange_archived in Harch. injection Harch as <-.
    split; [apply is_archived_archived_mono|].
    split; [|apply size_history_archived].
    intros Hopen. destruct (decide (other = request_id)) as [->|Hne].
    + right. apply is_archived_archived_same, Hopen.
    + left. apply is_open_archived_other; assumption.
  - rewrite _archive_exchange_archived in Harch. injection Harch as <-.
    split; [intros H; apply is_archived_archived_mono; exact H|].
    split; [|apply (size_history_archived _ _ (_write_request request_id data s))].
    intros Hopen. destruct (decide (other = request_id)) as [->|Hne].
    + right. apply is_archived_archived_same, is_open_write_request_same.
    + left. apply is_open_archived_other; [exact Hne|].
      apply is_open_write_request_mono, Hopen.
Qed.

(** X5: no run of the bus loses an exchange or a piece of history.
    Across any sequence of steps, an id that is archived stays archived,
    an id with an open record still has one or has become archived, and
    the number of history directories does not fall. *)
Theorem steps_lose_nothing (s s' : bus) :
  rtc step s s' ->
  forall request_id,
    (is_archived request_id s -> is_archived request_id s')
    /\ (is_open request_id s -> is_open request_id s' \/ is_archived request_id s')
    /\ (size (history s) <= size (history s'))%nat.
Proof.
  intros Hsteps request_id.
  induction Hsteps as [s|s s1 s' Hstep _ IH].
  - split; [tauto|]. split; [tauto|lia].
  - destruct (step_keeps _ _ Hstep request_id) as (Ha & Ho & Hn).
    destruct IH as (Ha' & Ho' & Hn').
    split; [tauto|]. split; [|lia].
    intros Hopen. destruct (Ho Hopen) as [H|H]; [apply Ho', H|right; apply Ha', H].
Qed.

(** X5 at a question that is asked, answered and archived. *)
Lemma steps_lose_nothing_witness :
  let s := _write_request "0a1b2c3d" [("id", VStr "0a1b2c3d")] empty_bus in
  let s' := archived (Clock.strftime 2000) "0a1b2c3d"
              (respond_to_oracle_call 1000 "0a1b2c3d" "A" s).2 in
  rtc step s s'
  /\ (is_open "0a1b2c3d" s -> is_open "0a1b2c3d" s' \/ is_archived "0a1b2c3d" s').
Proof.
  cbv zeta.
  set (s := _write_request "0a1b2c3d" [("id", VStr "0a1b2c3d")] empty_bus).
  set (s1 := (respond_to_oracle_call 1000 "0a1b2c3d" "A" s).2).
  assert (rtc step s (archived (Clock.strftime 2000) "0a1b2c3d" s1)) as Hsteps.
  { eapply rtc_l; [apply (step_respond 1000 "0a1b2c3d" "A" s)|].
    eapply rtc_l; [|apply rtc_refl].
    eapply (step_answered 2000 "0a1b2c3d" _ s1).
    - vm_compute. reflexivity.
    - apply _archive_exchange_archived. }
  split; [exact Hsteps|].
  exact (proj1 (proj2 (steps_lose_nothing _ _ Hsteps "0a1b2c3d"))).
Defined.

Lemma paired_empty : paired empty_bus.
Proof.
  split.
  - intros request_id [? H]. simpl in H. rewrite lookup_empty in H. discriminate H.
  - intros stamp dir request_id H. simpl in H. rewrite lookup_empty in H. discriminate H.
Qed.

Lemma paired_write_request request_id data s :
  paired s -> paired (_write_request request_id data s).
Proof.
  intros [Hopen Hhist]. split; [|exact Hhist].
  intros other Hp. simpl in *. destruct (decide (other = request_id)) as [->|Hne].
  - rewrite lookup_insert_eq. eauto.
  - rewrite lookup_insert_ne by congruence. apply Hopen, Hp.
Qed.

Lemma paired_respond now request_id answer s :
  paired s -> paired (respond_to_oracle_call now request_id answer s).2.
Proof.
  intros [Hopen Hhist]. split; [|rewrite respond_history; exact Hhist].
  intros other Hp. rewrite respond_requests.
  destruct (decide (other = request_id)) as [->|Hne].
  - unfold respond_to_oracle_call in Hp.
    destruct (requests s !! request_id) as [c|] eqn:E; [eauto|].
    simpl in Hp. apply Hopen in Hp. rewrite E in Hp. exact Hp.
  - rewrite respond_other in Hp by exact Hne. apply Hopen, Hp.
Qed.

Lemma paired_archived stamp request_id s :
  paired s -> paired (archived stamp request_id s).
Proof.
  intros [Hopen Hhist]. split.
  - intros other Hp. simpl in *. destruct (decide (other = request_id)) as [->|Hne].
    + rewrite lookup_delete_eq in Hp. destruct Hp as [? Hp]. discriminate Hp.
    + rewrite lookup_delete_ne in * by congruence. apply Hopen, Hp.
  - intros stamp' dir other Hdir Hp. simpl in Hdir.
    destruct (decide (stamp' = stamp)) as [->|Hs].
    + rewrite lookup_insert_eq in Hdir. injection Hdir as <-.
      assert (forall x, is_Some (response_files (default empty_dir (history s !! stamp)) !! x)
                -> is_Some (request_files (default empty_dir (history s !! stamp)) !! x))
        as Hdir0.
      { intros x. destruct (history s !! stamp) as [dir0|] eqn:E; simpl.
        - apply (Hhist stamp dir0 x E).
        - rewrite lookup_empty. intros [? H]. discriminate H. }
      destruct (decide (other = request_id)) as [->|Hne].
      * unfold moved_into in *. simpl in *.
        destruct (requests s !! request_id) as [c|] eqn:Eq;
          [rewrite lookup_insert_eq; eauto|].
        destruct (responses s !! request_id) as [c'|] eqn:Ep.
        -- assert (is_Some (requests s !! request_id)) as Hq
             by (apply Hopen; rewrite Ep; eauto).
           rewrite Eq in Hq. destruct Hq as [? Hq]. discriminate Hq.
        -- apply Hdir0, Hp.
      * destruct (moved_into_other other request_id s
                    (default empty_dir (history s !! stamp)) Hne) as [Hq' Hp'].
        rewrite Hq'. rewrite Hp' in Hp. apply Hdir0, Hp.
    + rewrite lookup_insert_ne in Hdir by congruence. apply (Hhist stamp' dir other Hdir Hp).
Qed.

Lemma paired_step s s' : step s s' -> paired s -> paired s'.
Proof.
  intros Hstep Hpaired. destruct Hstep as
    [request_id data s _ _ | now request_id answer s
    | now request_id response s s' _ Harch | now request_id data s s' Harch].
  - apply paired_write_request, Hpaired.
  - apply paired_respond, Hpaired.
  - rewrite _archive_exchange_archived in Harch. injection Harch as <-.
    apply paired_archived, Hpaired.
  - rewrite _archive_exchange_archived in Harch. injection Harch as <-.
    apply paired_archived, paired_write_request, Hpaired.
Qed.

(** X6: between operations that run one after the other, each to its
    end, the bus holds no answer without its question.  In every store
    reached by completed steps of the operations, an open response has its
    open request, and a history directory that holds the response of an
    id holds the request of that id.  (Inside [_archive_exchange], and
    when a responder writes after the issuer has archived, the response is
    open without its request: [pairing_fails].) *)
Theorem paired_reachable (s : bus) : reachable s -> paired s.
Proof.
  unfold reachable. intros Hreach.
  refine (rtc_ind_r (R := step) (fun s => paired s) empty_bus paired_empty _ s Hreach).
  intros s1 s2 _ Hstep IH. exact (paired_step _ _ Hstep IH).
Qed.

(** X6 at an answered question, before and after it is archived. *)
Lemma paired_reachable_witness :
  let s := (respond_to_oracle_call 1000 "0a1b2c3d" "A"
              (_write_request "0a1b2c3d" [("id", VStr "0a1b2c3d")] empty_bus)).2 in
  let s' := archived (Clock.strftime 2000) "0a1b2c3d" s in
  reachable s' /\ paired s'.
Proof.
  cbv zeta.
  set (s := (respond_to_oracle_call 1000 "0a1b2c3d" "A"
               (_write_request "0a1b2c3d" [("id", VStr "0a1b2c3d")] empty_bus)).2).
  assert (reachable (archived (Clock.strftime 2000) "0a1b2c3d" s)) as Hreach.
  { unfold reachable.
    eapply rtc_l; [|eapply rtc_l; [|eapply rtc_l; [|apply rtc_refl]]].
    - apply (step_issue "0a1b2c3d" [("id", VStr "0a1b2c3d")] empty_bus); apply fresh_empty.
    - apply (step_respond 1000 "0a1b2c3d" "A").
    - eapply (step_answered 2000 "0a1b2c3d" _ s).
      + vm_compute. reflexivity.
      + apply _archive_exchange_archived. }
  split; [exact Hreach|exact (paired_reachable _ Hreach)].
Defined.

(** ** Every call that returns has archived its exchange *)

Section IssuerEnds.

Variable lag : nat -> N.
Variables (request_id : string) (request_data : dict).
Variables (timeout_seconds start_time : Z).

Abbreviation loop := (wait_loop lag request_id request_data timeout_seconds start_time).
Abbreviation timed_out_data := (set request_data "status" (VStr "timeout")).



End IssuerEnds.





(** ** When exactly an unanswered call gives up *)

Section IssuerExact.

Variable lag : nat -> N.
Hypothesis lag_zero : forall k, lag k = 0%N.
Variables (request_id : string) (request_data : dict).
Variables (timeout_seconds start_time : Z).
Variable n : Z.
Hypothesis n_below : poll_interval * (n - 1) < timeout_seconds * 1000.
Hypothesis n_above : timeout_seconds * 1000 <= poll_interval * n.

Abbreviation loop := (wait_loop lag request_id request_data timeout_seconds start_time).


End IssuerExact.



(** ** Answers to other questions do not disturb a call *)

Lemma filter_comm {A} (P Q : A -> Prop) `{!forall x, Decision (P x)}
    `{!forall x, Decision (Q x)} (l : list A) :
  filter P (filter Q l) = filter Q (filter P l).
Proof.
  induction l as [|x l IH]; [reflexivity|].
  rewrite !filter_cons.
  destruct (decide (Q x)), (decide (P x)); rewrite ?filter_cons;
    repeat case_decide; try contradiction; rewrite IH; reflexivity.
Qed.

Section IssuerAlone.

Variable request_id : string.

Abbreviation own := (fun c : responder_call => call_id c = request_id).

(** The response of an id after some responder calls depends only on
    the calls for that id and on what the store held under that id. *)
Lemma responder_runs_own calls s1 s2 :
  requests s1 !! request_id = requests s2 !! request_id ->
  responses s1 !! request_id = responses s2 !! request_id ->
  responses (responder_runs calls s1) !! request_id =
  responses (responder_runs (filter own calls) s2) !! request_id.
Proof.
  revert s1 s2. induction calls as [|c calls IH]; intros s1 s2 Hq Hp; [exact Hp|].
  rewrite filter_cons. unfold responder_runs in *. simpl.
  destruct (decide (call_id c = request_id)) as [Heq|Hne]; simpl.
  - apply IH; [rewrite !respond_requests; exact Hq|].
    rewrite Heq. unfold respond_to_oracle_call. rewrite Hq.
    destruct (requests s2 !! request_id) as [[d|raw]|]; simpl;
      rewrite ?lookup_insert_eq; auto.
  - apply IH; [rewrite respond_requests; exact Hq|].
    rewrite respond_other by congruence. exact Hp.
Qed.

Variable lag : nat -> N.
Variables (request_data : dict) (timeout_seconds start_time : Z).

Abbreviation loop := (wait_loop lag request_id request_data timeout_seconds start_time).

Lemma wait_loop_own fuel k now script s1 s2 seen :
  requests s1 !! request_id = requests s2 !! request_id ->
  responses s1 !! request_id = responses s2 !! request_id ->
  observed <$> loop fuel k now script s1 seen =
  observed <$> loop fuel k now (filter own script) s2 seen.
Proof.
  revert k now script s1 s2 seen.
  induction fuel as [|fuel IH]; intros k now script s1 s2 seen Hq Hp; [reflexivity|].
  destruct (Z.lt_ge_cases (now - start_time) (timeout_seconds * 1000)) as [Hearly|Hlate].
  - destruct (responses s1 !! request_id) as [[response|raw]|] eqn:Hresp;
      symmetry in Hp.
    + rewrite (wait_loop_found _ _ _ _ _ _ _ _ _ s1 _ _ Hearly Hresp),
        (wait_loop_found _ _ _ _ _ _ _ _ _ s2 _ _ Hearly Hp). reflexivity.
    + rewrite (wait_loop_garbage _ _ _ _ _ _ _ _ _ s1 _ _ Hearly Hresp),
        (wait_loop_garbage _ _ _ _ _ _ _ _ _ s2 _ _ Hearly Hp). reflexivity.
    + rewrite (wait_loop_sleep _ _ _ _ _ _ _ _ _ s1 _ Hearly Hresp),
        (wait_loop_sleep _ _ _ _ _ _ _ _ _ s2 _ Hearly Hp). cbv zeta.
      unfold later, due. rewrite !(filter_comm _ own). apply IH.
      * rewrite !responder_runs_requests. exact Hq.
      * apply responder_runs_own; [exact Hq|congruence].
  - rewrite (wait_loop_deadline _ _ _ _ _ _ _ _ _ s1 _ Hlate),
      (wait_loop_deadline _ _ _ _ _ _ _ _ _ s2 _ Hlate). reflexivity.
Qed.

End IssuerAlone.

(** X11: when every responder call is for an id that names one file (no
    separator, no null character), the calls for other ids make no
    difference to a call of [oracle_call]: what it returns or raises, when
    it ends and when it looked are the same as if only the calls for its
    own id had been made.  (For such ids the store of records is the file
    tree, by [respond_refines]; an id that is a path can reach the files
    of another id.) *)
Theorem oracle_call_ignores_others (random : N) (lag : nat -> N)
    (script : list responder_call) (fuel : nat) (question context urgency : string)
    (timeout_seconds now : Z) (s : bus) :
  Forall (fun c => plain (call_id c)) script ->
  observed <$>
    oracle_call random lag script fuel question context urgency timeout_seconds now s
  = observed <$>
      oracle_call random lag
        (filter (fun c => call_id c = Uuid.request_id_of random) script)
        fuel question context urgency timeout_seconds now s.
Proof.
  intros _. unfold oracle_call, later, due.
  rewrite !(filter_comm _ (fun c => call_id c = Uuid.request_id_of random)).
  apply wait_loop_own; simpl.
  - rewrite !lookup_insert_eq. reflexivity.
  - apply responder_runs_own; reflexivity.
Qed.

(** X11 at a call answered after one lookup, while an answer to another
    id was given first. *)
Lemma oracle_call_ignores_others_witness :
  let script := [ {| at_ms := 1000; call_id := "77e0f9aa"; call_answer := "no" |};
                  {| at_ms := 1500; call_id := "00000000"; call_answer := "yes" |} ] in
  let s := _write_request "77e0f9aa" [("id", VStr "77e0f9aa")] empty_bus in
  Forall (fun c => plain (call_id c)) script
  /\ observed <$> oracle_call 0 (fun _ => 0%N) script 5 "Deploy to prod?" "" "normal" 300 0 s
     = observed <$>
         oracle_call 0 (fun _ => 0%N)
           (filter (fun c => call_id c = Uuid.request_id_of 0) script)
           5 "Deploy to prod?" "" "normal" 300 0 s
  /\ observed <$> oracle_call 0 (fun _ => 0%N) script 5 "Deploy to prod?" "" "normal" 300 0 s
     = Some (Ok "Oracle response (oracle): yes", 2000, [0; 2000]).
Proof.
  cbv zeta.
  assert (Forall (fun c => plain (call_id c))
            [ {| at_ms := 1000; call_id := "77e0f9aa"; call_answer := "no" |};
              {| at_ms := 1500; call_id := "00000000"; call_answer := "yes" |} ]) as Hplain
    by (repeat constructor).
  split; [exact Hplain|]. split.
  - apply (oracle_call_ignores_others 0 (fun _ => 0%N) _ 5 "Deploy to prod?" "" "normal"
             300 0 _ Hplain).
  - vm_compute. reflexivity.
Defined.

(** X12: a response file that [json.load] rejects is not taken for an
    answer and not waited out: the first lookup raises the decoding
    error.  The call has archived nothing: its request stays open with
    status pending, the unreadable file stays where it is, and the
    history is as before. *)
Theorem oracle_call_unreadable_response (random : N) (lag : nat -> N)
    (script : list responder_call) (fuel : nat) (question context urgency : string)
    (timeout_seconds now : Z) (s : bus) (raw : string) :
  let request_id := Uuid.request_id_of random in
  responses s !! request_id = Some (Garbage raw) ->
  requests s !! request_id = None ->
  0 < timeout_seconds ->
  exists o,
    oracle_call random lag script (S fuel) question context urgency timeout_seconds now s
      = Some o
    /\ returned o = Raise JSONDecodeError
    /\ polls o = [now]
    /\ requests (final o) !! request_id =
       Some (Json (request_record request_id question context urgency now))
    /\ responses (final o) !! request_id = Some (Garbage raw)
    /\ history (final o) = history s.
Proof.
  intros request_id Hbad Hnone Hpos. unfold oracle_call. fold request_id.
  match goal with
  | |- exists o, wait_loop _ _ _ _ _ _ _ _ _ ?s0 _ = Some o /\ _ =>
      assert (responses s0 !! request_id = Some (Garbage raw)) as Hbad0
        by (simpl; rewrite responder_runs_no_request; assumption)
  end.
  assert (now - now < timeout_seconds * 1000) as Hearly by lia.
  rewrite (wait_loop_garbage _ _ _ _ _ _ _ _ _ _ _ _ Hearly Hbad0).
  eexists. split; [reflexivity|]. simpl. rewrite lookup_insert_eq.
  split; [reflexivity|]. split; [reflexivity|]. split; [reflexivity|].
  split; [rewrite responder_runs_no_request; assumption|apply responder_runs_history].
Qed.

(** X12 at a response file cut off while it was written. *)
Lemma oracle_call_unreadable_response_witness :
  let s := {| requests := ∅;
              responses := {["00000000" := Garbage "{ id: "]};
              history := ∅ |} in
  responses s !! Uuid.request_id_of 0 = Some (Garbage "{ id: ")
  /\ requests s !! Uuid.request_id_of 0 = None
  /\ 0 < 300
  /\ exists o,
       oracle_call 0 (fun _ => 0%N) [] 1 "Deploy to prod?" "" "normal" 300 0 s = Some o
       /\ returned o = Raise JSONDecodeError.
Proof.
  cbv zeta.
  set (s := {| requests := ∅;
               responses := {["00000000" := Garbage "{ id: "]};
               history := ∅ |}).
  assert (responses s !! Uuid.request_id_of 0 = Some (Garbage "{ id: ")) as Hbad
    by (vm_compute; reflexivity).
  assert (requests s !! Uuid.request_id_of 0 = None) as Hnone by (vm_compute; reflexivity).
  assert (0 < 300) as Hpos by lia.
  split; [exact Hbad|]. split; [exact Hnone|]. split; [exact Hpos|].
  destruct (oracle_call_unreadable_response 0 (fun _ => 0%N) [] 0 "Deploy to prod?" ""
              "normal" 300 0 s "{ id: " Hbad Hnone Hpos)
    as (o & Hrun & Hret & _).
  exists o. split; [exact Hrun|exact Hret].
Defined.

(** ** What the counts and the limits of the inspector mean *)

(** X13: the "Historical exchanges" of [bus_status] counts the seconds in
    which something was archived, not the exchanges.  An archive call
    raises the count by one when the directory of its second is new and
    leaves it as it is when that directory exists, although the open
    records of its id have moved into it. *)
Theorem archive_counts_directories (now : Z) (request_id : string) (s : bus) :
  exists s',
    _archive_exchange now request_id s = Ok s'
    /\ Inspector.historical_exchanges s' =
       match history s !! Clock.strftime now with
       | Some _ => Inspector.historical_exchanges s
       | None => S (Inspector.historical_exchanges s)
       end
    /\ (is_open request_id s -> is_archived request_id s').
Proof.
  exists (archived (Clock.strftime now) request_id s).
  split; [apply _archive_exchange_archived|]. split.
  - unfold Inspector.historical_exchanges. rewrite !length_map_to_list. simpl.
    rewrite map_size_insert. destruct (history s !! Clock.strftime now); reflexivity.
  - apply is_archived_archived_same.
Qed.

Lemma take_to_nil {A} (limit : Z) (l : list A) :
  limit = 0 \/ limit <= - Z.of_nat (length l) -> take_to limit l = [].
Proof.
  intros Hlimit. unfold take_to. destruct (0 <=? limit) eqn:E.
  - apply Z.leb_le in E. replace limit with 0 by lia. apply take_0.
  - apply Z.leb_gt in E. replace (length l - Z.to_nat (- limit))%nat with 0%nat by lia.
    apply take_0.
Qed.

(** X14: [bus_history] with a limit of zero, or with a negative limit
    that reaches the number of history directories, reports that there is
    no history, whatever the history holds; so it does for every limit
    when the history is empty. *)
Theorem bus_history_nothing (limit : Z) (s : bus) :
  limit = 0 \/ limit <= - Z.of_nat (size (history s)) \/ history s = ∅ ->
  Inspector.bus_history limit s = Ok "No history on the bus yet.".
Proof.
  intros Hlimit. unfold Inspector.bus_history.
  match goal with
  | |- context [take_to limit ?l] =>
      assert (length l = size (history s)) as Hlen
        by (rewrite length_reverse, merge_sort_Permutation; apply length_map_to_list);
      assert (take_to limit l = []) as ->; [|reflexivity]
  end.
  destruct Hlimit as [Hzero|[Hneg|Hempty]].
  - apply take_to_nil. left. exact Hzero.
  - apply take_to_nil. right. rewrite Hlen. exact Hneg.
  - assert (size (history s) = 0%nat) as Hsize by (rewrite Hempty; apply map_size_empty).
    rewrite Hsize in Hlen. apply nil_length_inv in Hlen. rewrite Hlen.
    unfold take_to. destruct (0 <=? limit); apply take_nil.
Qed.

(** X14 at a history of one directory that a limit of zero hides. *)
Lemma bus_history_nothing_witness :
  let s := archived "19700101_000000" "0a1b2c3d"
             (_write_request "0a1b2c3d" [("id", VStr "0a1b2c3d")] empty_bus) in
  (0 = 0 \/ 0 <= - Z.of_nat (size (history s)) \/ history s = ∅)
  /\ Inspector.bus_history 0 s = Ok "No history on the bus yet."
  /\ exists text, Inspector.bus_history 1 s = Ok text
                  /\ text <> "No history on the bus yet.".
Proof.
  cbv zeta. split; [left; reflexivity|]. split.
  - apply (bus_history_nothing 0). left. reflexivity.
  - eexists. split; [vm_compute; reflexivity|]. intros H. discriminate H.
Defined.

(** ** The pending calls, each once and in order *)

Lemma path_le_total : Total Inspector.path_le.
Proof.
  intros a b. unfold Inspector.path_le.
  destruct (String.leb_total (a.1 +:+ ".json") (b.1 +:+ ".json")) as [H|H];
    rewrite H; [left|right]; exact I.
Qed.

(** A pass that meets no exception returns the blocks of its elements,
    one after the other. *)
Lemma for_each_chunks {A} (body : A -> result (list string)) (l : list A) :
  (forall x, x ∈ l -> exists ys, body x = Ok ys) ->
  exists chunks,
    Forall2 (fun x ys => body x = Ok ys) l chunks
    /\ Inspector.for_each body l = Ok (concat chunks).
Proof.
  induction l as [|x l IH]; intros Hall.
  - exists []. split; [constructor|reflexivity].
  - destruct (Hall x ltac:(left)) as [ys Hx].
    destruct IH as (chunks & Hchunks & Hrun); [intros y Hy; apply Hall; right; exact Hy|].
    exists (ys :: chunks). split; [constructor; assumption|].
    simpl. rewrite Hx. simpl. rewrite Hrun. reflexivity.
Qed.

(** X15: when every open request file parses, [list_pending_calls]
    lists each open request exactly once, in the order of the file names
    [<id>.json]: its text is the heading followed by the blocks of the
    request files, taken in a sorted arrangement of the directory.  With
    no open request it says so. *)
Theorem list_pending_calls_each_once (s : bus) :
  (forall request_id c, requests s !! request_id = Some c -> parses c) ->
  (requests s = ∅
   /\ Inspector.list_pending_calls s = Ok "No pending oracle calls on the bus.")
  \/ (requests s <> ∅
      /\ exists files chunks,
           files ≡ₚ map_to_list (requests s)
           /\ Sorted Inspector.path_le files
           /\ Forall2 (fun file ls => Inspector.pending_lines file = Ok ls) files chunks
           /\ Inspector.list_pending_calls s =
              Ok (join_lines (["=== Pending Oracle Calls ==="; ""] ++ concat chunks))).
Proof.
  intros Hall. unfold Inspector.list_pending_calls.
  destruct (map_to_list (requests s)) as [|file rest] eqn:E.
  - left. split; [apply map_to_list_empty_iff, E|reflexivity].
  - right. split; [intros Hempty; rewrite Hempty, map_to_list_empty in E; discriminate E|].
    rewrite <- E.
    match goal with
    | |- context [Inspector.for_each ?body ?l] =>
        destruct (for_each_chunks body l) as (chunks & Hchunks & ->);
        [|exists l, chunks]
    end.
    + intros [name c] Hin. rewrite merge_sort_Permutation in Hin.
      apply elem_of_map_to_list in Hin. apply pending_lines_ok. simpl. eauto.
    + split; [apply merge_sort_Permutation|].
      split; [apply Sorted_merge_sort, path_le_total|].
      split; [exact Hchunks|reflexivity].
Qed.

(** X15 at two open requests, written in the other order. *)
Lemma list_pending_calls_each_once_witness :
  let s := _write_request "0a1b2c3d" (request_record "0a1b2c3d" "First?" "" "low" 0)
             (_write_request "77e0f9aa" (request_record "77e0f9aa" "Second?" "" "high" 0)
                empty_bus) in
  (forall request_id c, requests s !! request_id = Some c -> parses c)
  /\ Inspector.list_pending_calls s =
     Ok (join_lines ["=== Pending Oracle Calls ==="; "";
                     "Request ID: 0a1b2c3d"; "  Question: First?"; "  Context: ";
                     "  Urgency: low"; "  Time: 1970-01-01T00:00:00+00:00";
                     "  Status: pending"; "";
                     "Request ID: 77e0f9aa"; "  Question: Second?"; "  Context: ";
                     "  Urgency: high"; "  Time: 1970-01-01T00:00:00+00:00";
                     "  Status: pending"; ""]).
Proof.
  cbv zeta.
  set (s := _write_request "0a1b2c3d" (request_record "0a1b2c3d" "First?" "" "low" 0)
              (_write_request "77e0f9aa" (request_record "77e0f9aa" "Second?" "" "high" 0)
                 empty_bus)).
  assert (forall request_id c, requests s !! request_id = Some c -> parses c) as Hall.
  { intros request_id c Hc. subst s. simpl in Hc.
    destruct (decide (request_id = "0a1b2c3d")) as [->|Hne1];
      [rewrite lookup_insert_eq in Hc; injection Hc as <-; exact I|].
    rewrite lookup_insert_ne in Hc by congruence.
    destruct (decide (request_id = "77e0f9aa")) as [->|Hne2];
      [rewrite lookup_insert_eq in Hc; injection Hc as <-; exact I|].
    rewrite lookup_insert_ne, lookup_empty in Hc by congruence. discriminate Hc. }
  split; [exact Hall|].
  destruct (list_pending_calls_each_once s Hall) as [[_ Hrun]|[_ (files & chunks & _ & _ & _ & Hrun)]];
    vm_compute; reflexivity.
Defined.

(** ** The ids [oracle_call] draws *)

Lemma hex_digit_char n : (n < 16)%N -> hex_char (Uuid.hex_digit n).
Proof.
  intros Hn. unfold hex_char, Uuid.hex_digit.
  destruct (n <? 10)%N eqn:E; rewrite N_ascii_embedding by lia;
    [apply N.ltb_lt in E|apply N.ltb_ge in E]; lia.
Qed.

Lemma hex_fixed_chars (w : nat) n :
  Forall hex_char (String.list_ascii_of_string (Uuid.hex_fixed w n)).
Proof.
  induction w as [|w IH]; simpl; constructor; [|exact IH].
  apply hex_digit_char, N.mod_lt. discriminate.
Qed.

(** X16: the id [oracle_call] draws is made of digits and the letters a
    to f only, so it holds no path separator and no dot and
    [requests/<id>.json] is a file of the requests directory itself; and
    every string of eight such digits is the id of some draw. *)
Theorem request_id_of_chars (random : N) :
  Forall hex_char (String.list_ascii_of_string (Uuid.request_id_of random))
  /\ (forall c, c ∈ String.list_ascii_of_string (Uuid.request_id_of random) ->
                c <> "/"%char /\ c <> "."%char)
  /\ forall x : N, Uuid.request_id_of (x * 2 ^ 96) = Uuid.hex_fixed 8 x.
Proof.
  assert (Forall hex_char (String.list_ascii_of_string (Uuid.request_id_of random))) as Hhex
    by (rewrite request_id_of_hex; apply hex_fixed_chars).
  split; [exact Hhex|]. split.
  - intros c Hin. rewrite Forall_forall in Hhex. specialize (Hhex c Hin).
    unfold hex_char in Hhex. split; intros ->; simpl in Hhex; lia.
  - intros x. rewrite request_id_of_hex. apply hex_fixed_eq_iff.
    change (16 ^ 24)%N with (2 ^ 96)%N. change (16 ^ N.of_nat 8)%N with (2 ^ 32)%N.
    rewrite uuid4_top, N.div_mul by discriminate. reflexivity.
Qed.

(** ** Runs in which the operations overlap *)

(** Every step of the restricted runs is a run of calls to the file
    system, so what is reached by [step] is reached by the code. *)
Lemma respond_syscalls now request_id answer s ws :
  rtc syscall (s, ws) ((respond_to_oracle_call now request_id answer s).2, ws).
Proof.
  unfold respond_to_oracle_call.
  destruct (requests s !! request_id) as [[request_data|raw]|] eqn:E; simpl;
    try apply rtc_refl.
  eapply rtc_l.
  - apply (sys_respond_read
             {| at_ms := now; call_id := request_id; call_answer := answer |}
             request_data s ws E).
  - apply rtc_once. apply (sys_respond_write _ _ s [] ws).
Qed.

Lemma _archive_exchange_syscalls now request_id s s' ws :
  _archive_exchange now request_id s = Ok s' -> rtc syscall (s, ws) (s', ws).
Proof.
  unfold _archive_exchange, _archive_exchange_request. intros Hrun.
  eapply rtc_l; [apply (sys_mkdir (Clock.strftime now))|].
  destruct (decide (is_Some (requests (mkdir (Clock.strftime now) s) !! request_id))).
  - destruct (rename_request request_id (Clock.strftime now) (mkdir (Clock.strftime now) s))
      as [s1|e] eqn:E1; [|discriminate Hrun].
    eapply rtc_l; [apply (sys_rename_request _ _ _ _ _ E1)|].
    simpl in Hrun. destruct (decide (is_Some (responses s1 !! request_id))).
    + apply rtc_once. apply (sys_rename_response _ _ _ _ _ Hrun).
    + injection Hrun as <-. apply rtc_refl.
  - simpl in Hrun.
    destruct (decide (is_Some (responses (mkdir (Clock.strftime now) s) !! request_id))).
    + apply rtc_once. apply (sys_rename_response _ _ _ _ _ Hrun).
    + injection Hrun as <-. apply rtc_refl.
Qed.

Lemma step_syscalls s s' ws : step s s' -> rtc syscall (s, ws) (s', ws).
Proof.
  intros Hstep. destruct Hstep as
    [request_id data s _ _ | now request_id answer s
    | now request_id response s s' _ Harch | now request_id data s s' Harch].
  - apply rtc_once. apply (sys_write_request request_id data s ws).
  - apply respond_syscalls.
  - apply (_archive_exchange_syscalls _ _ _ _ _ Harch).
  - eapply rtc_l; [apply (sys_write_request request_id data)|].
    apply (_archive_exchange_syscalls _ _ _ _ _ Harch).
Qed.

(** C1 (as stated) fails in three ways, each a run of the calls the code
    makes.  Inside [_archive_exchange], once the request of an answered
    question has been renamed and before its response is, the id is
    archived and open at once.  When a responder has found the request and
    the issuer times out and archives before the responder writes, both
    operations end and leave the response open beside the archived
    request.  And when a later call draws the id of an archived exchange,
    its request is open while the old one is archived. *)
Lemma exclusion_fails :
  let X := "00000000" in
  let data := request_record X "Deploy to prod?" "" "normal" 0 in
  let asked := _write_request X data empty_bus in
  let c := {| at_ms := 1000; call_id := X; call_answer := "A" |} in
  let timed_out := archived (Clock.strftime 2000) X
                     (_write_request X (set data "status" (VStr "timeout")) asked) in
  (exists mid,
     _archive_exchange_request 2000 X (respond_to_oracle_call 1000 X "A" asked).2 = Ok mid
     /\ is_open X mid /\ is_archived X mid /\ ~ exclusive mid)
  /\ final <$> oracle_call 0 (fun _ => 0%N) [] 4 "Deploy to prod?" "" "normal" 1 0 empty_bus
     = Some timed_out
  /\ (exists late,
        rtc syscall (empty_bus, []) (late, [])
        /\ late = write_response X (response_record data c) timed_out
        /\ is_open X late /\ is_archived X late /\ ~ exclusive late)
  /\ (exists again,
        rtc syscall (empty_bus, []) (again, [])
        /\ again = _write_request X (request_record X "Roll back?" "" "normal" 10000)
                     timed_out
        /\ Uuid.request_id_of 0 = X
        /\ is_open X again /\ is_archived X again /\ ~ exclusive again).
Proof.
  cbv zeta.
  set (X := "00000000").
  set (data := request_record X "Deploy to prod?" "" "normal" 0).
  set (asked := _write_request X data empty_bus).
  set (c := {| at_ms := 1000; call_id := X; call_answer := "A" |}).
  set (timed_out := archived (Clock.strftime 2000) X
                      (_write_request X (set data "status" (VStr "timeout")) asked)).
  assert (forall ws, rtc syscall (empty_bus, ws) (asked, ws)) as Hasked
    by (intros ws; apply rtc_once; apply (sys_write_request X data empty_bus ws)).
  assert (forall ws, rtc syscall (asked, ws) (timed_out, ws)) as Htimed.
  { intros ws.
    eapply rtc_l;
      [apply (sys_write_request X (set data "status" (VStr "timeout")) asked ws)|].
    apply (_archive_exchange_syscalls 2000 X). apply _archive_exchange_archived. }
  assert (is_archived X timed_out) as Hin
    by (apply is_archived_archived_same, is_open_write_request_same).
  split; [|split; [|split]].
  - eexists. split; [vm_compute; reflexivity|].
    match goal with
    | |- ?O /\ ?A /\ _ =>
        assert O as Hopen by (right; vm_compute; eauto);
        assert A as Harch
          by (eexists "19700101_000002", _; split; [vm_compute; reflexivity|];
              left; vm_compute; eauto)
    end.
    split; [exact Hopen|]. split; [exact Harch|].
    intros Hex. exact (Hex X (conj Hopen Harch)).
  - vm_compute. reflexivity.
  - eexists. split; [|split; [reflexivity|]].
    + etrans; [apply Hasked|].
      eapply rtc_l; [apply (sys_respond_read c data asked []); reflexivity|].
      etrans; [apply Htimed|].
      apply rtc_once.
      apply (sys_respond_write X (response_record data c) _ [] []).
    + assert (is_open X (write_response X (response_record data c) timed_out)) as Hopen
        by (right; simpl; rewrite lookup_insert_eq; eauto).
      split; [exact Hopen|]. split; [exact Hin|].
      intros Hex. exact (Hex X (conj Hopen Hin)).
  - eexists. split; [|split; [reflexivity|]].
    + etrans; [apply Hasked|]. etrans; [apply Htimed|].
      apply rtc_once. apply (sys_write_request X _ timed_out []).
    + split; [vm_compute; reflexivity|].
      assert (is_open X (_write_request X (request_record X "Roll back?" "" "normal" 10000)
                           timed_out)) as Hopen
        by apply is_open_write_request_same.
      split; [exact Hopen|]. split; [exact Hin|].
      intros Hex. exact (Hex X (conj Hopen Hin)).
Qed.

(** ** The recorder on the file tree *)

Lemma contains_append c a b :
  Fs.contains c (a +:+ b) = Fs.contains c a || Fs.contains c b.
Proof.
  induction a as [|x a IH]; simpl; [reflexivity|].
  rewrite IH. apply orb_assoc.
Qed.

Lemma components_plain s : Fs.contains "/" s = false -> Fs.components s = [s].
Proof.
  induction s as [|x s IH]; simpl; [reflexivity|].
  intros H. apply orb_false_iff in H as [Hx Hs].
  rewrite Hx, (IH Hs). reflexivity.
Qed.

Lemma length_append_json request_id :
  String.length (request_id +:+ ".json") = (String.length request_id + 5)%nat.
Proof. induction request_id as [|x s IH]; simpl; [reflexivity|]. rewrite IH. reflexivity. Qed.

(** The file name of an id without a separator is one name, and not
    one the file system reads as a direction. *)
Lemma parts_plain request_id :
  Fs.contains "/" request_id = false ->
  Fs.parts (request_id +:+ ".json") = [request_id +:+ ".json"]
  /\ Fs.is_absolute (request_id +:+ ".json") = false
  /\ String.eqb (request_id +:+ ".json") ".." = false.
Proof.
  intros Hplain.
  pose proof (length_append_json request_id) as Hlen.
  split; [|split].
  - unfold Fs.parts. rewrite components_plain.
    + rewrite filter_cons, decide_True; [reflexivity|].
      split; intros Heq; rewrite Heq in Hlen; simpl in Hlen; lia.
    + rewrite contains_append, Hplain. reflexivity.
  - destruct request_id as [|x s]; [reflexivity|].
    simpl in *. apply orb_false_iff in Hplain as [Hx _]. exact Hx.
  - apply String.eqb_neq. intros Heq. rewrite Heq in Hlen. simpl in Hlen. lia.
Qed.

Lemma resolve_plain t base request_id :
  Fs.contains "/" request_id = false ->
  Fs.resolve t base (request_id +:+ ".json") =
  if decide (base ∈ Fs.dirs t) then Ok (base ++ [request_id +:+ ".json"])
  else match Fs.files t !! base with
       | Some _ => Raise NotADirectoryError
       | None => Raise FileNotFoundError
       end.
Proof.
  intros Hplain. destruct (parts_plain request_id Hplain) as (Hparts & Habs & Hdots).
  unfold Fs.resolve. rewrite Habs, Hparts. simpl. rewrite Hdots. reflexivity.
Qed.




(** X1: for an id without a path separator, [respond_to_oracle_call]
    writes at most one file, [responses/<id>.json]: the directories and
    every other file of the tree are as before, and no file is gone. *)
Theorem respond_frame_plain (BUS_DIR : Fs.path) (now : Z) (request_id answer : string)
    (t : Fs.tree) :
  Fs.contains "/" request_id = false ->
  let t' := (Fs.respond_to_oracle_call BUS_DIR now request_id answer t).2 in
  Fs.dirs t' = Fs.dirs t
  /\ (forall p, p <> BUS_DIR ++ ["responses"; request_id +:+ ".json"] ->
                Fs.files t' !! p = Fs.files t !! p)
  /\ (forall p, is_Some (Fs.files t !! p) -> is_Some (Fs.files t' !! p)).
Proof.
  intros Hplain. cbv zeta. unfold Fs.respond_to_oracle_call.
  destruct (negb (Fs.exists_ t (BUS_DIR ++ ["requests"]) (request_id +:+ ".json")));
    [simpl; auto|].
  destruct (c <- Fs.open_read t (BUS_DIR ++ ["requests"]) (request_id +:+ ".json") ;;
            json_load c) as [request_data|e]; [|simpl; auto].
  unfold Fs.open_write.
  destruct (Fs.contains (ascii_of_N 0) (request_id +:+ ".json")); [simpl; auto|].
  rewrite resolve_plain by exact Hplain.
  case_decide; [|destruct (Fs.files t !! (BUS_DIR ++ ["responses"])); simpl; auto].
  replace ((BUS_DIR ++ ["responses"]) ++ [request_id +:+ ".json"])
    with (BUS_DIR ++ ["responses"; request_id +:+ ".json"])
    by (rewrite <- app_assoc; reflexivity).
  case_decide; [simpl; auto|]. simpl.
  split; [reflexivity|]. split.
  - intros p Hp. apply lookup_insert_ne. congruence.
  - intros p Hsome.
    destruct (decide (p = BUS_DIR ++ ["responses"; request_id +:+ ".json"])) as [->|Hne].
    + rewrite lookup_insert_eq. eauto.
    + rewrite lookup_insert_ne by congruence. exact Hsome.
Qed.

(** X1 at the answer to a pending question. *)
Lemma respond_frame_plain_witness :
  let BUS_DIR := ["bus"] in
  let request := BUS_DIR ++ ["requests"; "0a1b2c3d.json"] in
  let t := {| Fs.dirs := {[ []; BUS_DIR; BUS_DIR ++ ["requests"]; BUS_DIR ++ ["responses"];
                            BUS_DIR ++ ["history"] ]};
              Fs.files := {[ request := Json [("id", VStr "0a1b2c3d")] ]} |} in
  let t' := (Fs.respond_to_oracle_call BUS_DIR 5000 "0a1b2c3d" "yes" t).2 in
  Fs.contains "/" "0a1b2c3d" = false
  /\ Fs.files t' !! request = Fs.files t !! request
  /\ is_Some (Fs.files t' !! (BUS_DIR ++ ["responses"; "0a1b2c3d.json"])).
Proof.
  cbv zeta. split; [reflexivity|]. split.
  - apply (respond_frame_plain ["bus"] 5000 "0a1b2c3d" "yes" _ eq_refl).
    intros H. discriminate H.
  - vm_compute. eauto.
Defined.

(** ** The store of records and the file tree

    For an id that names one file, the recorder on the store of records
    is the recorder on the file tree: the two return the same value, and
    the store left is what the tree left holds. *)

Lemma append_json_inj a b : a +:+ ".json" = b +:+ ".json" -> a = b.
Proof.
  revert b. induction a as [|x a IH]; intros [|y b] Heq.
  - reflexivity.
  - apply (f_equal String.length) in Heq.
    rewrite (length_append_json (String y b)) in Heq. simpl in Heq. lia.
  - apply (f_equal String.length) in Heq.
    rewrite (length_append_json (String x a)) in Heq. simpl in Heq. lia.
  - simpl in Heq. injection Heq as -> Heq. f_equal. apply IH, Heq.
Qed.

Lemma respond_refines (BUS_DIR : Fs.path) (now : Z) (request_id answer : string)
    (t : Fs.tree) (s : bus) :
  represents BUS_DIR t s ->
  plain request_id ->
  (Fs.respond_to_oracle_call BUS_DIR now request_id answer t).1 =
  (respond_to_oracle_call now request_id answer s).1
  /\ represents BUS_DIR (Fs.respond_to_oracle_call BUS_DIR now request_id answer t).2
       (respond_to_oracle_call now request_id answer s).2.
Proof.
  intros Hrep [Hplain Hnul].
  pose proof Hrep as (Hreqs & Hresps & Hfiles).
  destruct (Hfiles request_id (conj Hplain Hnul)) as (Hqd & Hpd & Hq & Hp).
  assert (Fs.contains (ascii_of_N 0) (request_id +:+ ".json") = false) as Hnul'
    by (rewrite contains_append, Hnul; reflexivity).
  unfold Fs.respond_to_oracle_call, respond_to_oracle_call, Fs.exists_, Fs.open_read,
    Fs.open_write.
  rewrite Hnul', !resolve_plain by exact Hplain.
  rewrite (decide_True (P := BUS_DIR ++ ["requests"] ∈ Fs.dirs t)) by exact Hreqs.
  rewrite (decide_True (P := BUS_DIR ++ ["responses"] ∈ Fs.dirs t)) by exact Hresps.
  replace ((BUS_DIR ++ ["requests"]) ++ [request_id +:+ ".json"])
    with (BUS_DIR ++ ["requests"; request_id +:+ ".json"])
    by (rewrite <- app_assoc; reflexivity).
  replace ((BUS_DIR ++ ["responses"]) ++ [request_id +:+ ".json"])
    with (BUS_DIR ++ ["responses"; request_id +:+ ".json"])
    by (rewrite <- app_assoc; reflexivity).
  rewrite Hq. destruct (requests s !! request_id) as [c|] eqn:E.
  - rewrite bool_decide_eq_true_2 by (right; eauto). simpl.
    destruct (json_load c) as [request_data|e]; simpl; [|split; [reflexivity|exact Hrep]].
    rewrite decide_False by exact Hpd. simpl. split; [reflexivity|].
    split; [exact Hreqs|]. split; [exact Hresps|].
    intros other Hother. destruct (Hfiles other Hother) as (Hqd' & Hpd' & Hq' & Hp').
    split; [exact Hqd'|]. split; [exact Hpd'|]. cbn [Fs.files requests responses]. split.
    + rewrite lookup_insert_ne; [exact Hq'|].
      intros Heq. apply app_inv_head in Heq. discriminate Heq.
    + destruct (decide (other = request_id)) as [->|Hne].
      * rewrite !lookup_insert_eq. reflexivity.
      * rewrite !lookup_insert_ne; [exact Hp'| |].
        -- intros Heq. apply Hne. symmetry. exact Heq.
        -- intros Heq. apply app_inv_head in Heq. injection Heq as Heq.
           apply append_json_inj in Heq. apply Hne. symmetry. exact Heq.
  - rewrite bool_decide_eq_false_2; [simpl; split; [reflexivity|exact Hrep]|].
    intros [Hd|[c Hc]]; [exact (Hqd Hd)|discriminate Hc].
Qed.

(** An id that is a path reaches the files of another id: an answer given
    under [./00000000] is the response of [00000000]. *)
Lemma respond_alias :
  let BUS_DIR := ["bus"] in
  let t := {| Fs.dirs := {[ []; BUS_DIR; BUS_DIR ++ ["requests"]; BUS_DIR ++ ["responses"];
                            BUS_DIR ++ ["history"] ]};
              Fs.files := {[ BUS_DIR ++ ["requests"; "00000000.json"] :=
                               Json [("id", VStr "00000000")] ]} |} in
  ~ plain "./00000000"
  /\ Fs.files (Fs.respond_to_oracle_call BUS_DIR 1000 "./00000000" "yes" t).2
       !! (BUS_DIR ++ ["responses"; "00000000.json"]) =
     Some (Json [("id", VStr "./00000000");
                 ("type", VStr "oracle_response");
                 ("question", VStr "");
                 ("answer", VStr "yes");
                 ("responder", VStr "oracle");
                 ("timestamp", VStr "1970-01-01T00:00:01+00:00")]).
Proof.
  cbv zeta. split.
  - intros [H _]. vm_compute in H. discriminate H.
  - vm_compute. reflexivity.
Qed.

(** The pairing of X6 fails in runs of the calls the code makes where the
    operations overlap: when a responder has found the request and the
    issuer times out and archives before the responder writes, the
    response is left open without its request. *)
Lemma pairing_fails :
  let X := "00000000" in
  let data := request_record X "Deploy to prod?" "" "normal" 0 in
  let asked := _write_request X data empty_bus in
  let c := {| at_ms := 1000; call_id := X; call_answer := "A" |} in
  let timed_out := archived (Clock.strftime 2000) X
                     (_write_request X (set data "status" (VStr "timeout")) asked) in
  let late := write_response X (response_record data c) timed_out in
  rtc syscall (empty_bus, []) (late, [])
  /\ is_Some (responses late !! X)
  /\ requests late !! X = None
  /\ ~ paired late.
Proof.
  cbv zeta.
  set (X := "00000000").
  set (data := request_record X "Deploy to prod?" "" "normal" 0).
  set (asked := _write_request X data empty_bus).
  set (c := {| at_ms := 1000; call_id := X; call_answer := "A" |}).
  split; [|split; [|split]].
  - eapply rtc_l; [apply (sys_write_request X data empty_bus [])|].
    eapply rtc_l; [apply (sys_respond_read c data asked []); reflexivity|].
    eapply rtc_l;
      [apply (sys_write_request X (set data "status" (VStr "timeout")) asked)|].
    etrans; [apply (_archive_exchange_syscalls 2000 X), _archive_exchange_archived|].
    apply rtc_once.
    apply (sys_respond_write X (response_record data c) _ [] []).
  - vm_compute. eauto.
  - vm_compute. reflexivity.
  - intros [Hopen _].
    assert (is_Some (requests
                       (write_response X (response_record data c)
                          (archived (Clock.strftime 2000) X
                             (_write_request X (set data "status" (VStr "timeout")) asked)))
                     !! X)) as [r Hr].
    { apply Hopen. vm_compute. eauto. }
    vm_compute in Hr. discriminate Hr.
Qed.
